(** * Turing Smart Screen, hardware revision B: the serial driver

    A shallow embedding of [library/lcd_comm_rev_b.py]: the 10-byte command
    frames, the HELLO handshake, the brightness encoding, the pixel packing
    and the way an image paint is put on the update queue.

    Conventions of the embedding.
    - Python integers are [Z]; a byte is a [Z] in [0, 256); [bytes],
      [bytearray] and lists of integers are [list Z].
    - A method that may raise returns a [result]; a method that writes to the
      serial link, logs, or touches the update queue runs in the monad [M],
      which records the events it performed, in order, and keeps them when an
      exception cuts the method short (Python's queue and log keep what was
      done before the [raise]).
    - [get_width()] and [get_height()] come from [library.lcd_comm], outside
      this file: they are variables of the sections that need them. *)

From Stdlib Require Import ZArith List Bool Lia Floats.
From Stdlib Require Import Ascii String.
From Stdlib Require HexString.
From Stdlib Require Import List.
Import ListNotations.

Local Open Scope Z_scope.

(** ** Exceptions and results *)

Inductive exn : Type :=
| IndexError
| ValueError
| OverflowError
| AssertionError
| StructError.

Inductive result (A : Type) : Type :=
| Ok (a : A)
| Raise (e : exn).

Arguments Ok {A} a.
Arguments Raise {A} e.

(** ** Events: what a method does to the world *)

(** The two bound methods that are put on the update queue. *)
Inductive writer : Type := WriteData_fn | WriteLine_fn.

(** A queued job: [(self.WriteData, [byteBuffer])] or [(self.WriteLine, [line])]. *)
Definition job : Type := (writer * list Z)%type.

Inductive loglevel : Type := Warning | Info | Debug.

Inductive event : Type :=
| Acquire                                (* config.update_queue_mutex.__enter__ *)
| Release                                (* config.update_queue_mutex.__exit__ *)
| Put (j : job)                          (* config.update_queue.put(j) *)
| SerialWrite (data : list Z)            (* self.lcd_serial.write(data) *)
| Log (lvl : loglevel) (msg : string).   (* logger.warning / info / debug *)

(** ** The monad of a method: a trace of events and a result *)

Definition M (A : Type) : Type := (list event * result A)%type.

Definition ret {A : Type} (a : A) : M A := ([], Ok a).

Definition bind {A B : Type} (m : M A) (f : A -> M B) : M B :=
  match m with
  | (t, Ok a) => let (t', r) := f a in (t ++ t', r)
  | (t, Raise e) => (t, Raise e)
  end.

Definition emit (e : event) : M unit := ([e], Ok tt).

Definition lift {A : Type} (r : result A) : M A := ([], r).

Definition trace {A : Type} (m : M A) : list event := fst m.

Definition outcome {A : Type} (m : M A) : result A := snd m.

Declare Scope py_scope.
Delimit Scope py_scope with py.
Notation "x <- m ;; k" := (bind m (fun x => k))
  (at level 61, m at next level, right associativity) : py_scope.
Notation "m ;;; k" := (bind m (fun _ => k))
  (at level 61, right associativity) : py_scope.
Local Open Scope py_scope.

(** [assert c]: Python's assert statement. *)
Definition py_assert (c : bool) : M unit :=
  if c then ret tt else lift (Raise AssertionError).

(** [with config.update_queue_mutex: body]: the mutex is released on every
    exit from the body, an exception included. *)
Definition with_mutex {A : Type} (body : M A) : M A :=
  let (t, r) := body in (Acquire :: t ++ [Release], r).

(** [for x in xs: s = body x s]: a loop that threads its variables. *)
Fixpoint for_each {A S : Type} (xs : list A) (body : A -> S -> M S) (s : S)
  : M S :=
  match xs with
  | [] => ret s
  | x :: xs' => s' <- body x s ;; for_each xs' body s'
  end.

(** [range(n)]: empty when [n <= 0]. *)
Definition range (n : Z) : list Z := map Z.of_nat (seq 0 (Z.to_nat n)).

(** ** Python sequences *)

Definition len (l : list Z) : Z := Z.of_nat (List.length l).

(** [l[i]], with Python's negative indices. *)
Definition getitem (l : list Z) (i : Z) : result Z :=
  let i' := if i <? 0 then i + len l else i in
  if (0 <=? i') && (i' <? len l)
  then Ok (nth (Z.to_nat i') l 0)
  else Raise IndexError.

(** [l[lo:hi]] for [0 <= lo <= hi]. *)
Definition slice (l : list Z) (lo hi : nat) : list Z :=
  firstn (hi - lo) (skipn lo l).

Definition is_byte (v : Z) : bool := (0 <=? v) && (v <? 256).

(** [buf[i] = v] on a bytearray: the value must be in range(256). *)
Fixpoint setitem (buf : list Z) (i : nat) (v : Z) : list Z :=
  match buf, i with
  | [], _ => []
  | _ :: tl, O => v :: tl
  | b :: tl, S i' => b :: setitem tl i' v
  end.

Definition bytearray_setitem (buf : list Z) (i : nat) (v : result Z)
  : result (list Z) :=
  match v with
  | Raise e => Raise e
  | Ok v =>
      if (i <? List.length buf)%nat
      then if is_byte v then Ok (setitem buf i v) else Raise ValueError
      else Raise IndexError
  end.

Definition list_eqb (a b : list Z) : bool :=
  if list_eq_dec Z.eq_dec a b then true else false.

(** ** The enumerations *)

Inductive Command : Type :=
| HELLO
| SET_ORIENTATION
| DISPLAY_BITMAP
| SET_LIGHTING
| SET_BRIGHTNESS.

Definition Command_value (c : Command) : Z :=
  match c with
  | HELLO => 0xCA
  | SET_ORIENTATION => 0xCB
  | DISPLAY_BITMAP => 0xCC
  | SET_LIGHTING => 0xCD
  | SET_BRIGHTNESS => 0xCE
  end.

Inductive SubRevision : Type := A01 | A02 | A11 | A12.

Definition SubRevision_value (s : SubRevision) : Z :=
  match s with
  | A01 => 0xA01
  | A02 => 0xA02
  | A11 => 0xA11
  | A12 => 0xA12
  end.

Inductive Orientation : Type :=
| PORTRAIT
| LANDSCAPE
| REVERSE_PORTRAIT
| REVERSE_LANDSCAPE.

Inductive OrientationValueRevB : Type :=
| ORIENTATION_PORTRAIT
| ORIENTATION_LANDSCAPE.

Definition OrientationValueRevB_value (o : OrientationValueRevB) : Z :=
  match o with
  | ORIENTATION_PORTRAIT => 0
  | ORIENTATION_LANDSCAPE => 1
  end.

Definition get_rev_b_orientation (orientation : Orientation)
  : OrientationValueRevB :=
  match orientation with
  | PORTRAIT | REVERSE_PORTRAIT => ORIENTATION_PORTRAIT
  | _ => ORIENTATION_LANDSCAPE
  end.

Definition is_flagship (sub_revision : SubRevision) : bool :=
  match sub_revision with
  | A02 | A12 => true
  | _ => false
  end.

Definition is_brightness_range (sub_revision : SubRevision) : bool :=
  match sub_revision with
  | A11 | A12 => true
  | _ => false
  end.

(** ** SendCommand, WriteData, SendLine *)

(** The payload that SendCommand indexes: eight zeros when none is given,
    zero-padded when shorter than eight, left as it is otherwise. *)
Definition padded_payload (payload : option (list Z)) : list Z :=
  match payload with
  | None => repeat 0 8
  | Some p =>
      if len p <? 8 then p ++ repeat 0 (Z.to_nat (8 - len p)) else p
  end.

(** The ten assignments that fill [byteBuffer]. *)
Definition byteBuffer_of (cmd : Command) (payload : option (list Z))
  : result (list Z) :=
  let payload := padded_payload payload in
  let step (buf : result (list Z)) (i : nat) (v : result Z) :=
    match buf with
    | Ok b => bytearray_setitem b i v
    | Raise e => Raise e
    end in
  let b := Ok (repeat 0 10%nat) in
  let b := step b 0%nat (Ok (Command_value cmd)) in
  let b := step b 1%nat (getitem payload 0) in
  let b := step b 2%nat (getitem payload 1) in
  let b := step b 3%nat (getitem payload 2) in
  let b := step b 4%nat (getitem payload 3) in
  let b := step b 5%nat (getitem payload 4) in
  let b := step b 6%nat (getitem payload 5) in
  let b := step b 7%nat (getitem payload 6) in
  let b := step b 8%nat (getitem payload 7) in
  step b 9%nat (Ok (Command_value cmd)).

(** [WriteData]: one write on the serial link; a write timeout is caught and
    logged.  [timed_out] says whether the link timed out on this write. *)
Definition WriteData (byteBuffer : list Z) (timed_out : bool) : M unit :=
  emit (SerialWrite byteBuffer) ;;;
  if timed_out
  then emit (Log Warning "(Write data) Too fast! Slow down!")
  else ret tt.

Definition WriteLine (line : list Z) (timed_out : bool) : M unit :=
  emit (SerialWrite line) ;;;
  if timed_out
  then emit (Log Warning "(Write line) Too fast! Slow down!")
  else ret tt.

(** [timed_out] is only looked at on the bypass path, the one that writes. *)
Definition SendCommand (cmd : Command) (payload : option (list Z))
  (bypass_queue : bool) (timed_out : bool) : M unit :=
  byteBuffer <- lift (byteBuffer_of cmd payload) ;;
  if bypass_queue
  then WriteData byteBuffer timed_out
  else with_mutex (emit (Put (WriteData_fn, byteBuffer))).

(** [SendLine] puts the line on the queue and takes no mutex itself. *)
Definition SendLine (line : list Z) : M unit :=
  emit (Put (WriteLine_fn, line)).

(** ** The text of the log messages *)

(** [hex(z)]: "0x" and the lowercase hexadecimal digits, "-0x..." below 0. *)
Definition hex (z : Z) : string := HexString.of_Z z.

Definition chr (c : Z) : ascii := ascii_of_nat (Z.to_nat c).

Definition hex_digit (d : Z) : ascii :=
  nth (Z.to_nat d) (list_ascii_of_string "0123456789abcdef") (chr 48).

(** One byte of [repr(bytes)], inside the quote [quote]: the quote and the
    backslash are escaped, tab, newline and carriage return have their
    letter, the other bytes outside the printable ASCII range are written
    \xhh, the rest as they are. *)
Definition repr_byte (quote c : Z) : string :=
  if (c =? quote) || (c =? 92) then String (chr 92) (String (chr c) EmptyString)
  else if c =? 9 then String (chr 92) "t"
  else if c =? 10 then String (chr 92) "n"
  else if c =? 13 then String (chr 92) "r"
  else if (c <? 32) || (127 <=? c)
       then String (chr 92)
              (String "x"
                 (String (hex_digit (c / 16))
                    (String (hex_digit (c mod 16)) EmptyString)))
  else String (chr c) EmptyString.

(** [repr(b)] of a bytes object, which is what [%r] formats: the quote is
    the single quote, or the double quote when the bytes hold a single quote
    and no double quote. *)
Definition bytes_repr (b : list Z) : string :=
  let quote :=
    if existsb (Z.eqb 39) b && negb (existsb (Z.eqb 34) b) then 34 else 39 in
  String "b"
    (String (chr quote)
       (String.append
          (String.concat EmptyString (map (repr_byte quote) b))
          (String (chr quote) EmptyString))).

(** ** Hello *)

(** [[ord('H'), ord('E'), ord('L'), ord('L'), ord('O')]] *)
Definition hello : list Z := [72; 69; 76; 76; 79].

(** [Hello]: [sub_revision] is [self.sub_revision] on entry, [response] is
    what [self.lcd_serial.read(10)] returned (at most 10 bytes, fewer on a
    read timeout).  The value returned is [self.sub_revision] on exit; every
    [raise] of this method happens before any assignment to it. *)
Definition Hello (sub_revision : SubRevision) (timed_out : bool)
  (response : list Z) : M SubRevision :=
  SendCommand HELLO (Some hello) true timed_out ;;;
  (if negb (len response =? 10)
   then emit (Log Warning "Device not recognised (short response to HELLO)")
   else ret tt) ;;;
  first <- lift (getitem response 0) ;;
  bad_framing <-
    (if negb (first =? Command_value HELLO)
     then ret true
     else last <- lift (getitem response (-1)) ;;
          ret (negb (last =? Command_value HELLO))) ;;
  (if bad_framing
   then emit (Log Warning "Device not recognised (bad framing)")
   else ret tt) ;;;
  (if negb (list_eqb (slice response 1 6) hello)
   then emit (Log Warning
                (String.append "Device not recognised (No HELLO; got "
                   (String.append (bytes_repr (slice response 1 6)) ")")))
   else ret tt) ;;;
  r6 <- lift (getitem response 6) ;;
  sub_revision <-
    (if r6 =? 0xA
     then r7 <- lift (getitem response 7) ;;
          if r7 =? 0x01 then ret A01
          else if r7 =? 0x02 then ret A02
          else if r7 =? 0x11 then ret A11
          else if r7 =? 0x12 then ret A12
          else emit (Log Warning
                       "Display returned unknown sub-revision on Hello answer") ;;;
               ret sub_revision
     else ret sub_revision) ;;
  emit (Log Debug
          (String.append "HW sub-revision: "
             (hex (SubRevision_value sub_revision)))) ;;;
  ret sub_revision.

(** ** SetBrightness *)

(** Python's [int / int] and [float * int] work on IEEE 754 binary64 numbers,
    which are Rocq's primitive floats.  An integer below 2^53 converts
    exactly. *)
Definition float_of_int (z : Z) : float := PrimFloat.of_uint63 (Uint63.of_Z z).

(** [int(f)]: truncation towards zero of a finite float. *)
Definition int_of_float (f : float) : result Z :=
  match Prim2SF f with
  | S754_zero _ => Ok 0
  | S754_finite s m e =>
      let a := if 0 <=? e then Z.pos m * 2 ^ e else Z.pos m / 2 ^ (- e) in
      Ok (if s then - a else a)
  | S754_infinity _ => Raise OverflowError
  | S754_nan => Raise ValueError
  end.

(** [int((level_user / 100) * 255)] *)
Definition brightness_range_level (level_user : Z) : result Z :=
  int_of_float
    (PrimFloat.mul (PrimFloat.div (float_of_int level_user) (float_of_int 100))
                   (float_of_int 255)).

Definition SetBrightness (sub_revision : SubRevision) (level_user : Z)
  : M unit :=
  py_assert ((0 <=? level_user) && (level_user <=? 100)) ;;;
  level <-
    (if is_brightness_range sub_revision
     then lift (brightness_range_level level_user)
     else emit (Log Info "Your display does not support custom brightness level") ;;;
          ret (if level_user =? 0 then 1 else 0)) ;;
  SendCommand SET_BRIGHTNESS (Some [level]) false false.

Definition SetBackplateLedColor (sub_revision : SubRevision)
  (led_color : list Z) : M unit :=
  if is_flagship sub_revision
  then SendCommand SET_LIGHTING (Some led_color) false false
  else emit (Log Info
               "Only HW revision 'flagship' supports backplate LED color setting").

Definition SetOrientation (orientation : Orientation) : M unit :=
  SendCommand SET_ORIENTATION
    (Some [OrientationValueRevB_value (get_rev_b_orientation orientation)])
    false false.

(** ** The pixel codec *)

Definition pixel : Type := (Z * Z * Z)%type.

(** The word that the inner loop of DisplayPILImage builds for one pixel. *)
Definition rgb_word (p : pixel) : Z :=
  let '(r, g, b) := p in
  let R := Z.shiftr r 3 in
  let G := Z.shiftr g 2 in
  let B := Z.shiftr b 3 in
  Z.lor (Z.lor (Z.lor (Z.shiftl B 8) (Z.shiftr G 3))
               (Z.shiftl (Z.land G 7) 13))
        (Z.shiftl R 3).

(** [struct.pack('H', v)]: an unsigned short in the byte order of the host,
    which is little-endian on the machines the program runs on (x86 and ARM);
    a value outside [0, 65535] raises [struct.error]. *)
Definition struct_pack_H (v : Z) : result (list Z) :=
  if (0 <=? v) && (v <=? 65535)
  then Ok [Z.land v 255; Z.land (Z.shiftr v 8) 255]
  else Raise StructError.

(** ** DisplayPILImage *)

(** A PIL image in mode RGB: its [size] is (width, height) and the pixel
    access object returned by [load()] is indexed by (x, y). *)
Record Image : Type := mkImage {
  size : Z * Z;
  pixels : Z -> Z -> pixel
}.

(** [pix[w, h]] for the non-negative indices that [range] produces. *)
Definition pix_getitem (image : Image) (w h : Z) : result pixel :=
  if (0 <=? w) && (w <? fst (size image)) && (0 <=? h) && (h <? snd (size image))
  then Ok (pixels image w h)
  else Raise IndexError.

Section Display.

(** [get_width()] and [get_height()] of [library.lcd_comm]. *)
Variables get_width get_height : Z.

(** The body of the inner loop: [line] is the buffer being filled. *)
Definition pixel_body (image : Image) (h w : Z) (line : list Z)
  : M (list Z) :=
  p <- lift (pix_getitem image w h) ;;
  packed <- lift (struct_pack_H (rgb_word p)) ;;
  let line := line ++ packed in
  if get_width * 8 <=? len line
  then SendLine line ;;; ret []
  else ret line.

(** The two nested loops and the write of the last line, all of it inside
    the [with] block. *)
Definition send_pixels (image : Image) (image_width image_height : Z)
  : M unit :=
  with_mutex
    (line <- for_each (range image_height)
               (fun h line =>
                  for_each (range image_width) (pixel_body image h) line)
               [] ;;
     if 0 <? len line then SendLine line else ret tt).

Definition DisplayPILImage (image : Image) (x y image_width image_height : Z)
  : M unit :=
  let image_height :=
    if image_height =? 0 then snd (size image) else image_height in
  let image_width :=
    if image_width =? 0 then fst (size image) else image_width in
  let image_height :=
    if snd (size image) >? get_height then get_height else image_height in
  let image_width :=
    if fst (size image) >? get_width then get_width else image_width in
  py_assert (x <=? get_width) ;;;
  py_assert (y <=? get_height) ;;;
  py_assert (image_height >? 0) ;;;
  py_assert (image_width >? 0) ;;;
  let '(x0, y0) := (x, y) in
  let '(x1, y1) := (x + image_width - 1, y + image_height - 1) in
  SendCommand DISPLAY_BITMAP
    (Some [Z.land (Z.shiftr x0 8) 255; Z.land x0 255;
           Z.land (Z.shiftr y0 8) 255; Z.land y0 255;
           Z.land (Z.shiftr x1 8) 255; Z.land x1 255;
           Z.land (Z.shiftr y1 8) 255; Z.land y1 255])
    false false ;;;
  send_pixels image image_width image_height.

(** [Clear]: a white image of the size of the display. *)
Definition Clear : M unit :=
  DisplayPILImage
    (mkImage (get_width, get_height) (fun _ _ => (255, 255, 255))) 0 0 0 0.

End Display.

(** The jobs that a trace of events puts on the update queue, in order. *)
Fixpoint puts (t : list event) : list job :=
  match t with
  | [] => []
  | Put j :: t' => j :: puts t'
  | _ :: t' => puts t'
  end.

(** ** Producers running side by side

    Several threads call the methods above on one update queue.  A thread is
    the list of events its calls still have to perform; a scheduler picks
    which thread performs its next event.  The mutex is Python's
    [threading.Lock]: acquiring it blocks while some thread holds it. *)

Record system : Type := mkSystem {
  queue : list job;
  owner : option nat;
  threads : list (list event)
}.

Definition init (progs : list (list event)) : system :=
  mkSystem [] None progs.

Fixpoint set_thread (ts : list (list event)) (i : nat) (t : list event)
  : list (list event) :=
  match ts, i with
  | [], _ => []
  | _ :: tl, O => t :: tl
  | t0 :: tl, S i' => t0 :: set_thread tl i' t
  end.

(** Thread [i] performs its next event; [None] when it has none left or is
    blocked on the mutex. *)
Definition step (s : system) (i : nat) : option system :=
  match nth_error (threads s) i with
  | Some (e :: rest) =>
      let ts := set_thread (threads s) i rest in
      match e with
      | Acquire =>
          match owner s with
          | None => Some (mkSystem (queue s) (Some i) ts)
          | Some _ => None
          end
      | Release => Some (mkSystem (queue s) None ts)
      | Put j => Some (mkSystem (queue s ++ [j]) (owner s) ts)
      | SerialWrite _ | Log _ _ => Some (mkSystem (queue s) (owner s) ts)
      end
  | _ => None
  end.

Fixpoint run (s : system) (schedule : list nat) : option system :=
  match schedule with
  | [] => Some s
  | i :: rest =>
      match step s i with
      | Some s' => run s' rest
      | None => None
      end
  end.

(** A thread keeps the locking discipline when it puts jobs on the queue only
    while it holds the mutex, acquires it only when it does not hold it and
    releases it only when it does.  [held] says whether it holds the mutex
    at the start of [t]. *)
Fixpoint disciplined_from (held : bool) (t : list event) : bool :=
  match t with
  | [] => negb held
  | Acquire :: t' => negb held && disciplined_from true t'
  | Release :: t' => held && disciplined_from false t'
  | Put _ :: t' => held && disciplined_from held t'
  | _ :: t' => disciplined_from held t'
  end.

Definition disciplined (t : list event) : bool := disciplined_from false t.

Definition is_put (e : event) : bool :=
  match e with
  | Put _ => true
  | _ => false
  end.

(** An event that neither takes nor frees the mutex. *)
Definition lock_free (e : event) : bool :=
  match e with
  | Acquire | Release => false
  | _ => true
  end.

(** Thread [i] holds the mutex. *)
Definition holds (s : system) (i : nat) : bool :=
  match owner s with
  | Some j => Nat.eqb j i
  | None => false
  end.

(** Every thread of the system keeps the locking discipline from where it
    stands. *)
Definition well_locked (s : system) : Prop :=
  forall i t, nth_error (threads s) i = Some t ->
              disciplined_from (holds s i) t = true.

(** Where thread [p] stands with respect to one of its [with] blocks, when
    its whole program is [before ++ Acquire :: body ++ Release :: after]:
    before the block, inside it, or past it; and what the queue holds of the
    jobs of the block. *)
Inductive block_state (before body after : list event) (p : nat) (s : system)
  : Prop :=
| Waiting (b0 b' : list event) :
    before = b0 ++ b' ->
    nth_error (threads s) p = Some (b' ++ Acquire :: body ++ Release :: after) ->
    incl (puts b0) (queue s) ->
    block_state before body after p s
| Inside (b1 b2 : list event) (q1 : list job) :
    body = b1 ++ b2 ->
    nth_error (threads s) p = Some (b2 ++ Release :: after) ->
    owner s = Some p ->
    queue s = q1 ++ puts b1 ->
    incl (puts before) q1 ->
    block_state before body after p s
| Past (a0 a' : list event) (q1 q2 : list job) :
    after = a0 ++ a' ->
    nth_error (threads s) p = Some a' ->
    queue s = q1 ++ puts body ++ q2 ->
    incl (puts before) q1 ->
    block_state before body after p s.

(** ** The words of the specification *)

(** The two bytes of a 16-bit word, low byte first. *)
Definition little_endian (word : Z) : list Z := [word mod 256; word / 256].

(** One row of the raster-order encoding: the first [w] pixels of row [y],
    left to right, two bytes a pixel. *)
Definition raster_row (image : Image) (w y : Z) : list Z :=
  flat_map (fun x => little_endian (rgb_word (pixels image x y))) (range w).

(** The raster-order encoding of the top-left [w] by [h] pixels of an image:
    rows top to bottom. *)
Definition raster (image : Image) (w h : Z) : list Z :=
  flat_map (raster_row image w) (range h).

(** The pixels that the paint reads are RGB triples of bytes. *)
Definition rgb_pixel (p : pixel) : Prop :=
  let '(r, g, b) := p in
  0 <= r <= 255 /\ 0 <= g <= 255 /\ 0 <= b <= 255.

(** The event of one pixel-line job. *)
Definition line_job (line : list Z) : event := Put (WriteLine_fn, line).

(** The state of the line buffer between two pixels: an even number of
    bytes, fewer than the [cap] at which a line is sent. *)
Definition buffering (cap : Z) (line : list Z) : Prop :=
  len line < cap /\ exists k, len line = 2 * k.

(** A piece of the paint loop, started with the buffer [line], sent full
    lines and left a buffer that together carry [line] then [bytes]. *)
Definition chunked (cap : Z) (line bytes : list Z) (m : M (list Z)) : Prop :=
  exists lines line',
    m = (map line_job lines, Ok line')
    /\ concat lines ++ line' = line ++ bytes
    /\ Forall (fun l => len l = cap) lines
    /\ buffering cap line'.

(** [round(level / 100 * 255)]: the integer nearest to [level * 255 / 100]
    (a tie goes up). *)
Definition round_level (level : Z) : Z := (2 * (level * 255) + 100) / 200.

(** The big-endian split of a coordinate on 16 bits: high byte, low byte. *)
Definition big_endian (v : Z) : list Z := [(v / 256) mod 256; v mod 256].

(** The payload of DISPLAY_BITMAP for the inclusive bounding box
    (x0, y0)-(x1, y1). *)
Definition bounding_box_payload (x0 y0 x1 y1 : Z) : list Z :=
  big_endian x0 ++ big_endian y0 ++ big_endian x1 ++ big_endian y1.

(** ** The rest of the driver *)

(** [InitializeComm] is the handshake. *)
Definition InitializeComm (sub_revision : SubRevision) (timed_out : bool)
  (response : list Z) : M SubRevision :=
  Hello sub_revision timed_out response.

(** [Reset]: this hardware has no reset command, the screen is cleared. *)
Definition Reset (get_width get_height : Z) : M unit :=
  Clear get_width get_height.

(** [ScreenOff] is [SetBrightness(0)]. *)
Definition ScreenOff (sub_revision : SubRevision) : M unit :=
  SetBrightness sub_revision 0.

(** [ScreenOn] is [SetBrightness()], at the brightness of the configuration,
    [CONFIG_DATA["display"]["BRIGHTNESS"]]. *)
Definition ScreenOn (sub_revision : SubRevision) (BRIGHTNESS : Z) : M unit :=
  SetBrightness sub_revision BRIGHTNESS.

(** The height and the width that DisplayPILImage paints: the one asked for,
    the native one when 0 is asked for, the one of the display when the image
    is larger than the display. *)
Definition resolved_height (get_height : Z) (image : Image)
  (image_height : Z) : Z :=
  let image_height :=
    if image_height =? 0 then snd (size image) else image_height in
  if snd (size image) >? get_height then get_height else image_height.

Definition resolved_width (get_width : Z) (image : Image)
  (image_width : Z) : Z :=
  let image_width :=
    if image_width =? 0 then fst (size image) else image_width in
  if fst (size image) >? get_width then get_width else image_width.

(** A serial port as pyserial lists it; a port may have no serial number. *)
Record com_port : Type := mkPort {
  device : string;
  serial_number : option string
}.

Definition is_turing_screen (port : com_port) : bool :=
  match serial_number port with
  | Some sn => String.eqb sn "2017-2-25"
  | None => false
  end.

(** [auto_detect_com_port]: the loop goes through all the ports and keeps
    the device of each match in [auto_com_port]. *)
Definition auto_detect_com_port (com_ports : list com_port) : option string :=
  fold_left
    (fun auto_com_port port =>
       if is_turing_screen port then Some (device port) else auto_com_port)
    com_ports None.

(** An event that leaves the update queue and its mutex alone. *)
Definition off_queue (e : event) : bool :=
  match e with
  | SerialWrite _ | Log _ _ => true
  | _ => false
  end.

(** The frame that Hello writes. *)
Definition hello_frame : list Z := [0xCA; 72; 69; 76; 76; 79; 0; 0; 0; 0xCA].

(** A thread can perform its next event. *)
Definition can_step (s : system) (i : nat) : bool :=
  match step s i with
  | Some _ => true
  | None => false
  end.

(** All the threads have performed all their events. *)
Definition finished (s : system) : bool :=
  forallb (fun t => match t with [] => true | _ => false end) (threads s).

(** One call of a method of the driver, with its arguments; the tier is an
    argument of the calls that read it. *)
Inductive call : Type :=
| CallHello (sub_revision : SubRevision) (timed_out : bool) (response : list Z)
| CallSetBrightness (sub_revision : SubRevision) (level_user : Z)
| CallSetBackplateLedColor (sub_revision : SubRevision) (led_color : list Z)
| CallSetOrientation (orientation : Orientation)
| CallDisplayPILImage (image : Image) (x y image_width image_height : Z)
| CallClear
| CallReset
| CallScreenOff (sub_revision : SubRevision)
| CallScreenOn (sub_revision : SubRevision) (BRIGHTNESS : Z).

(** The events of a call, on a display of the given size. *)
Definition call_trace (get_width get_height : Z) (c : call) : list event :=
  match c with
  | CallHello sub_revision timed_out response =>
      trace (Hello sub_revision timed_out response)
  | CallSetBrightness sub_revision level_user =>
      trace (SetBrightness sub_revision level_user)
  | CallSetBackplateLedColor sub_revision led_color =>
      trace (SetBackplateLedColor sub_revision led_color)
  | CallSetOrientation orientation => trace (SetOrientation orientation)
  | CallDisplayPILImage image x y image_width image_height =>
      trace (DisplayPILImage get_width get_height image x y
               image_width image_height)
  | CallClear => trace (Clear get_width get_height)
  | CallReset => trace (Reset get_width get_height)
  | CallScreenOff sub_revision => trace (ScreenOff sub_revision)
  | CallScreenOn sub_revision BRIGHTNESS =>
      trace (ScreenOn sub_revision BRIGHTNESS)
  end.

(** A thread that makes some calls one after the other; a call that raises
    is taken to be caught by the caller, who goes on. *)
Definition thread_of (get_width get_height : Z) (calls : list call)
  : list event :=
  flat_map (call_trace get_width get_height) calls.

(** The tier that [__init__] sets, until Hello detects another. *)
Definition initial_sub_revision : SubRevision := A01.

(** * Properties *)

(** ** Arithmetic on bit fields *)

Lemma is_byte_true (v : Z) : 0 <= v < 256 -> is_byte v = true.
Proof.
  intros [Hlo Hhi]. unfold is_byte.
  apply andb_true_intro. split; [apply Z.leb_le | apply Z.ltb_lt]; assumption.
Qed.

Lemma land_255_mod (v : Z) : Z.land v 255 = v mod 256.
Proof. change 255 with (Z.ones 8). rewrite Z.land_ones by lia. reflexivity. Qed.

Lemma land_7_mod (v : Z) : Z.land v 7 = v mod 8.
Proof. change 7 with (Z.ones 3). rewrite Z.land_ones by lia. reflexivity. Qed.

Lemma lor_below_pow2 (n a b : Z) :
  0 <= n -> 0 <= a < 2 ^ n -> 0 <= b < 2 ^ n -> 0 <= Z.lor a b < 2 ^ n.
Proof.
  intros Hn Ha Hb.
  assert (Hnn : 0 <= Z.lor a b) by (apply Z.lor_nonneg; lia).
  split; [assumption|].
  destruct (Z.eq_dec (Z.lor a b) 0) as [Hz | Hz].
  - rewrite Hz. apply Z.pow_pos_nonneg; lia.
  - assert (Hpos : 0 < n).
    { destruct (Z.eq_dec n 0) as [-> | Hn0]; [|lia].
      change (2 ^ 0) with 1 in Ha, Hb.
      assert (a = 0) as -> by lia. assert (b = 0) as -> by lia.
      contradiction Hz; reflexivity. }
    apply Z.log2_lt_pow2; [lia|].
    rewrite Z.log2_lor by lia.
    apply Z.max_lub_lt.
    + destruct (Z.eq_dec a 0) as [-> | Ha0]; [simpl; lia|].
      apply Z.log2_lt_pow2; lia.
    + destruct (Z.eq_dec b 0) as [-> | Hb0]; [simpl; lia|].
      apply Z.log2_lt_pow2; lia.
Qed.

Lemma rgb_word_range (r g b : Z) :
  0 <= r <= 255 -> 0 <= g <= 255 -> 0 <= b <= 255 ->
  0 <= rgb_word (r, g, b) < 2 ^ 16.
Proof.
  intros Hr Hg Hb. unfold rgb_word.
  rewrite !Z.shiftr_div_pow2, !Z.shiftl_mul_pow2, land_7_mod by lia.
  change (2 ^ 3) with 8. change (2 ^ 2) with 4.
  change (2 ^ 8) with 256. change (2 ^ 13) with 8192.
  assert (H5r : 0 <= r / 8 < 32)
    by (split; [apply Z.div_pos | apply Z.div_lt_upper_bound]; lia).
  assert (H6g : 0 <= g / 4 < 64)
    by (split; [apply Z.div_pos | apply Z.div_lt_upper_bound]; lia).
  assert (H5b : 0 <= b / 8 < 32)
    by (split; [apply Z.div_pos | apply Z.div_lt_upper_bound]; lia).
  assert (Hg3 : 0 <= g / 4 / 8 < 8)
    by (split; [apply Z.div_pos | apply Z.div_lt_upper_bound]; lia).
  assert (Hgm : 0 <= (g / 4) mod 8 < 8) by (apply Z.mod_pos_bound; lia).
  repeat apply lor_below_pow2; change (2 ^ 16) with 65536; lia.
Qed.

Lemma struct_pack_H_bytes (v : Z) :
  0 <= v < 2 ^ 16 -> struct_pack_H v = Ok [v mod 256; v / 256].
Proof.
  intros Hv. change (2 ^ 16) with 65536 in Hv. unfold struct_pack_H.
  replace ((0 <=? v) && (v <=? 65535)) with true
    by (symmetry; apply andb_true_intro; split; apply Z.leb_le; lia).
  rewrite !land_255_mod, Z.shiftr_div_pow2 by lia.
  change (2 ^ 8) with 256.
  rewrite (Z.mod_small (v / 256)); [reflexivity|].
  split; [apply Z.div_pos | apply Z.div_lt_upper_bound]; lia.
Qed.

(** ** The pixel codec *)

(** C1: a pixel with channels in 0..255 is downsampled to R5 = R >> 3,
    G6 = G >> 2, B5 = B >> 3 and packed as
    (B5 << 8) | (G6 >> 3) | ((G6 & 7) << 13) | (R5 << 3); the two bytes
    written are the low byte then the high byte of that word; black gives 0
    and white gives 0xFFFF. *)
Theorem pixel_encoding_layout (r g b : Z) :
  0 <= r <= 255 -> 0 <= g <= 255 -> 0 <= b <= 255 ->
  let R5 := Z.shiftr r 3 in
  let G6 := Z.shiftr g 2 in
  let B5 := Z.shiftr b 3 in
  let word :=
    Z.lor (Z.lor (Z.lor (Z.shiftl B5 8) (Z.shiftr G6 3))
                 (Z.shiftl (Z.land G6 7) 13))
          (Z.shiftl R5 3) in
  rgb_word (r, g, b) = word
  /\ struct_pack_H (rgb_word (r, g, b)) = Ok [word mod 256; word / 256]
  /\ word = word mod 256 + 256 * (word / 256)
  /\ rgb_word (0, 0, 0) = 0
  /\ struct_pack_H (rgb_word (0, 0, 0)) = Ok [0; 0]
  /\ rgb_word (255, 255, 255) = 0xFFFF
  /\ struct_pack_H (rgb_word (255, 255, 255)) = Ok [255; 255].
Proof.
  intros Hr Hg Hb R5 G6 B5 word.
  assert (Hw : rgb_word (r, g, b) = word) by reflexivity.
  split; [exact Hw|].
  split.
  - rewrite <- Hw. apply struct_pack_H_bytes, rgb_word_range; assumption.
  - split; [rewrite Z.add_comm; apply Z.div_mod; lia|].
    repeat split; reflexivity.
Qed.

Lemma pixel_encoding_layout_witness :
  rgb_word (200, 100, 50) = 9931
  /\ struct_pack_H (rgb_word (200, 100, 50)) = Ok [203; 38].
Proof.
  destruct (pixel_encoding_layout 200 100 50) as (Hw & Hp & _); try lia.
  split; [exact Hw | exact Hp].
Defined.

(** C10: for channels in 0..255 the packed word is below 2^16, so
    struct.pack('H', ...) never fails on it and gives two bytes. *)
Theorem packed_pixel_fits_unsigned_short (r g b : Z) :
  0 <= r <= 255 -> 0 <= g <= 255 -> 0 <= b <= 255 ->
  0 <= rgb_word (r, g, b) < 2 ^ 16
  /\ exists lo hi,
       struct_pack_H (rgb_word (r, g, b)) = Ok [lo; hi]
       /\ 0 <= lo < 256 /\ 0 <= hi < 256.
Proof.
  intros Hr Hg Hb.
  pose proof (rgb_word_range r g b Hr Hg Hb) as Hrange.
  split; [exact Hrange|].
  exists (rgb_word (r, g, b) mod 256), (rgb_word (r, g, b) / 256).
  split; [apply struct_pack_H_bytes; exact Hrange|].
  change (2 ^ 16) with 65536 in Hrange.
  split; [apply Z.mod_pos_bound; lia|].
  split; [apply Z.div_pos | apply Z.div_lt_upper_bound]; lia.
Qed.

Lemma packed_pixel_fits_unsigned_short_witness :
  0 <= rgb_word (255, 0, 128) < 2 ^ 16
  /\ exists lo hi,
       struct_pack_H (rgb_word (255, 0, 128)) = Ok [lo; hi]
       /\ 0 <= lo < 256 /\ 0 <= hi < 256.
Proof. apply (packed_pixel_fits_unsigned_short 255 0 128); lia. Defined.

(** ** Command frames *)

Lemma getitem_in_range (l : list Z) (i : Z) :
  0 <= i < len l -> getitem l i = Ok (nth (Z.to_nat i) l 0).
Proof.
  intros [Hlo Hhi]. unfold getitem.
  replace (i <? 0) with false by (symmetry; apply Z.ltb_ge; lia).
  replace (0 <=? i) with true by (symmetry; apply Z.leb_le; lia).
  replace (i <? len l) with true by (symmetry; apply Z.ltb_lt; lia).
  reflexivity.
Qed.

Lemma getitem_out_of_range (l : list Z) (i : Z) :
  len l <= i -> getitem l i = Raise IndexError.
Proof.
  intros Hi. unfold getitem. pose proof (Nat2Z.is_nonneg (List.length l)).
  unfold len in *.
  replace (i <? 0) with false by (symmetry; apply Z.ltb_ge; lia).
  replace (i <? Z.of_nat (List.length l)) with false
    by (symmetry; apply Z.ltb_ge; lia).
  rewrite andb_false_r. reflexivity.
Qed.

Lemma Command_value_is_byte (cmd : Command) :
  is_byte (Command_value cmd) = true.
Proof. destruct cmd; reflexivity. Qed.

#[local] Arguments is_byte : simpl never.
#[local] Arguments Command_value : simpl never.

(** What the ten assignments build once the padded payload has eight items
    or more: the items after the eighth are never read. *)
Lemma byteBuffer_of_firstn (cmd : Command) (payload : option (list Z)) :
  (8 <= List.length (padded_payload payload))%nat ->
  Forall (fun b => 0 <= b < 256) (firstn 8 (padded_payload payload)) ->
  byteBuffer_of cmd payload
  = Ok (Command_value cmd :: firstn 8 (padded_payload payload)
          ++ [Command_value cmd]).
Proof.
  unfold byteBuffer_of.
  generalize (padded_payload payload) as p. intros p Hlen Hbytes.
  do 8 (destruct p as [|? p]; [simpl in Hlen; lia|]).
  simpl firstn in *.
  repeat match goal with
         | H : Forall _ (_ :: _) |- _ => inversion H; subst; clear H
         end.
  rewrite !getitem_in_range by (unfold len; simpl List.length; lia).
  simpl. rewrite Command_value_is_byte. simpl.
  repeat (rewrite is_byte_true by assumption; simpl).
  reflexivity.
Qed.

Lemma padded_payload_short (p : list Z) :
  (List.length p <= 8)%nat ->
  padded_payload (Some p) = p ++ repeat 0 (8 - List.length p).
Proof.
  intros Hlen. unfold padded_payload, len.
  destruct (Z.ltb_spec (Z.of_nat (List.length p)) 8) as [Hlt | Hge].
  - f_equal. f_equal. lia.
  - replace (8 - List.length p)%nat with 0%nat by lia.
    simpl. rewrite app_nil_r. reflexivity.
Qed.

Lemma padded_payload_long (p : list Z) :
  (8 <= List.length p)%nat -> padded_payload (Some p) = p.
Proof.
  intros Hlen. unfold padded_payload, len.
  destruct (Z.ltb_spec (Z.of_nat (List.length p)) 8) as [Hlt | Hge];
    [lia | reflexivity].
Qed.

Lemma Forall_repeat_zero (n : nat) : Forall (fun b => 0 <= b < 256) (repeat 0 n).
Proof. induction n; simpl; constructor; [lia | assumption]. Qed.

Lemma byteBuffer_of_short (cmd : Command) (p : list Z) :
  (List.length p <= 8)%nat ->
  Forall (fun b => 0 <= b < 256) p ->
  byteBuffer_of cmd (Some p)
  = Ok (Command_value cmd :: p ++ repeat 0 (8 - List.length p)
          ++ [Command_value cmd]).
Proof.
  intros Hlen Hbytes.
  assert (Hfull : List.length (p ++ repeat 0 (8 - List.length p)) = 8%nat)
    by (rewrite length_app, repeat_length; lia).
  rewrite byteBuffer_of_firstn; rewrite padded_payload_short by assumption.
  - rewrite firstn_all2 by (rewrite Hfull; lia).
    rewrite <- app_assoc. reflexivity.
  - lia.
  - rewrite firstn_all2 by (rewrite Hfull; lia).
    apply Forall_app. split; [assumption | apply Forall_repeat_zero].
Qed.

Lemma SendCommand_queued (cmd : Command) (payload : option (list Z))
  (frame : list Z) :
  byteBuffer_of cmd payload = Ok frame ->
  SendCommand cmd payload false false
  = ([Acquire; Put (WriteData_fn, frame); Release], Ok tt).
Proof. intros H. unfold SendCommand. rewrite H. reflexivity. Qed.

(** C2: for every opcode and every payload of at most 8 bytes (an omitted
    payload counts as empty), the frame has 10 bytes, bytes 0 and 9 are the
    opcode, bytes 1..len(payload) are the payload in order and the payload
    positions after them, up to byte 8, are zero; that frame is what
    SendCommand puts on the queue. *)
Theorem frame_layout (cmd : Command) (payload : option (list Z)) :
  let p := match payload with Some p => p | None => [] end in
  (List.length p <= 8)%nat ->
  Forall (fun b => 0 <= b < 256) p ->
  exists frame,
    byteBuffer_of cmd payload = Ok frame
    /\ SendCommand cmd payload false false
       = ([Acquire; Put (WriteData_fn, frame); Release], Ok tt)
    /\ List.length frame = 10%nat
    /\ nth 0 frame 0 = Command_value cmd
    /\ nth 9 frame 0 = Command_value cmd
    /\ (forall i, (i < List.length p)%nat -> nth (S i) frame 0 = nth i p 0)
    /\ (forall i, (List.length p <= i < 8)%nat -> nth (S i) frame 0 = 0).
Proof.
  intros p Hlen Hbytes.
  exists (Command_value cmd :: p ++ repeat 0 (8 - List.length p)
            ++ [Command_value cmd]).
  assert (Hframe : byteBuffer_of cmd payload
                   = Ok (Command_value cmd :: p ++ repeat 0 (8 - List.length p)
                           ++ [Command_value cmd])).
  { destruct payload as [p0|]; subst p.
    - apply byteBuffer_of_short; assumption.
    - destruct cmd; reflexivity. }
  split; [exact Hframe|].
  split; [apply SendCommand_queued; exact Hframe|].
  split; [cbn [List.length]; rewrite !length_app, repeat_length;
          cbn [List.length]; lia|].
  split; [reflexivity|].
  split.
  - change (nth 9 (Command_value cmd :: p ++ repeat 0 (8 - List.length p)
                     ++ [Command_value cmd]) 0)
      with (nth 8 (p ++ repeat 0 (8 - List.length p) ++ [Command_value cmd]) 0).
    rewrite app_assoc, app_nth2; rewrite length_app, repeat_length.
    + replace (8 - (List.length p + (8 - List.length p)))%nat with 0%nat by lia.
      reflexivity.
    + lia.
  - split; intros i Hi; cbn [nth].
    + apply app_nth1. exact Hi.
    + rewrite app_nth2 by lia. rewrite app_nth1 by (rewrite repeat_length; lia).
      apply nth_repeat.
Qed.

Lemma frame_layout_witness :
  exists frame,
    byteBuffer_of SET_LIGHTING (Some [255; 128; 0]) = Ok frame
    /\ SendCommand SET_LIGHTING (Some [255; 128; 0]) false false
       = ([Acquire; Put (WriteData_fn, frame); Release], Ok tt)
    /\ List.length frame = 10%nat
    /\ nth 0 frame 0 = 0xCD
    /\ nth 9 frame 0 = 0xCD
    /\ (forall i, (i < 3)%nat -> nth (S i) frame 0 = nth i [255; 128; 0] 0)
    /\ (forall i, (3 <= i < 8)%nat -> nth (S i) frame 0 = 0).
Proof.
  apply (frame_layout SET_LIGHTING (Some [255; 128; 0])).
  - simpl; lia.
  - repeat constructor; lia.
Defined.

(** C5, as the specification states it, fails: a payload of 9 bytes builds a
    frame, and no exception is raised. *)
Lemma long_payload_builds_a_frame :
  (8 < List.length [1; 2; 3; 4; 5; 6; 7; 8; 9])%nat
  /\ byteBuffer_of SET_LIGHTING (Some [1; 2; 3; 4; 5; 6; 7; 8; 9])
     = Ok [0xCD; 1; 2; 3; 4; 5; 6; 7; 8; 0xCD]
  /\ ~ (exists e, byteBuffer_of SET_LIGHTING (Some [1; 2; 3; 4; 5; 6; 7; 8; 9])
                  = Raise e).
Proof.
  split; [simpl; lia|].
  split; [reflexivity|].
  intros [e He]. discriminate He.
Qed.

(** C5, amended: a payload longer than 8 bytes does not fail; the frame
    carries its first 8 bytes between the two opcode bytes, the bytes after
    the eighth are dropped, and SendCommand puts that frame on the queue. *)
Theorem long_payload_truncated (cmd : Command) (p : list Z) :
  (8 < List.length p)%nat ->
  Forall (fun b => 0 <= b < 256) p ->
  byteBuffer_of cmd (Some p)
  = Ok (Command_value cmd :: firstn 8 p ++ [Command_value cmd])
  /\ SendCommand cmd (Some p) false false
     = ([Acquire;
         Put (WriteData_fn, Command_value cmd :: firstn 8 p ++ [Command_value cmd]);
         Release], Ok tt).
Proof.
  intros Hlen Hbytes.
  assert (Hframe : byteBuffer_of cmd (Some p)
                   = Ok (Command_value cmd :: firstn 8 p ++ [Command_value cmd])).
  { rewrite byteBuffer_of_firstn; rewrite padded_payload_long by lia.
    - reflexivity.
    - lia.
    - rewrite <- (firstn_skipn 8 p) in Hbytes.
      apply Forall_app in Hbytes. apply Hbytes. }
  split; [exact Hframe | apply SendCommand_queued; exact Hframe].
Qed.

Lemma long_payload_truncated_witness :
  byteBuffer_of HELLO (Some [1; 2; 3; 4; 5; 6; 7; 8; 9; 10])
  = Ok [0xCA; 1; 2; 3; 4; 5; 6; 7; 8; 0xCA]
  /\ SendCommand HELLO (Some [1; 2; 3; 4; 5; 6; 7; 8; 9; 10]) false false
     = ([Acquire; Put (WriteData_fn, [0xCA; 1; 2; 3; 4; 5; 6; 7; 8; 0xCA]);
         Release], Ok tt).
Proof.
  apply (long_payload_truncated HELLO [1; 2; 3; 4; 5; 6; 7; 8; 9; 10]).
  - simpl; lia.
  - repeat constructor; lia.
Defined.

(** ** Brightness *)

Lemma SetBrightness_asserted (level_user : Z) :
  0 <= level_user <= 100 ->
  (0 <=? level_user) && (level_user <=? 100) = true.
Proof. intros H. apply andb_true_intro; split; apply Z.leb_le; lia. Qed.

(** C7: on a tier without the brightness range, SetBrightness sends the
    payload byte 1 when the level is 0 and the payload byte 0 for every level
    in (0, 100]. *)
Theorem binary_brightness_inverted (sub_revision : SubRevision) (level_user : Z) :
  is_brightness_range sub_revision = false ->
  0 <= level_user <= 100 ->
  let level := if level_user =? 0 then 1 else 0 in
  SetBrightness sub_revision level_user
  = ([Log Info "Your display does not support custom brightness level";
      Acquire;
      Put (WriteData_fn, [0xCE; level; 0; 0; 0; 0; 0; 0; 0; 0xCE]);
      Release], Ok tt)
  /\ (level_user = 0 -> level = 1)
  /\ (0 < level_user -> level = 0).
Proof.
  intros Htier Hrange level. unfold SetBrightness.
  rewrite Htier, SetBrightness_asserted by assumption.
  subst level. destruct (Z.eqb_spec level_user 0) as [Hz | Hnz].
  - split; [reflexivity|]. split; [reflexivity | lia].
  - split; [reflexivity|]. split; [contradiction | reflexivity].
Qed.

Lemma binary_brightness_inverted_witness :
  SetBrightness A02 40
  = ([Log Info "Your display does not support custom brightness level";
      Acquire;
      Put (WriteData_fn, [0xCE; 0; 0; 0; 0; 0; 0; 0; 0; 0xCE]);
      Release], Ok tt).
Proof.
  apply (binary_brightness_inverted A02 40); [reflexivity | lia].
Defined.

(** The float computation [int((level_user / 100) * 255)] agrees with the
    integer quotient of [level_user * 255] by 100 on every level from 0 to
    100: checked level by level on the binary64 operations. *)
Lemma brightness_range_level_truncates (level_user : Z) :
  0 <= level_user <= 100 ->
  brightness_range_level level_user = Ok (level_user * 255 / 100).
Proof.
  intros Hrange.
  assert (Hall :
    forallb (fun n => match brightness_range_level (Z.of_nat n) with
                      | Ok v => v =? Z.of_nat n * 255 / 100
                      | Raise _ => false
                      end) (seq 0 101) = true) by (vm_compute; reflexivity).
  rewrite forallb_forall in Hall.
  specialize (Hall (Z.to_nat level_user)).
  rewrite Z2Nat.id in Hall by lia.
  destruct (brightness_range_level level_user) as [v | e].
  - f_equal. apply Z.eqb_eq. apply Hall. apply in_seq. lia.
  - discriminate Hall. apply in_seq. lia.
Qed.

(** C6, as the specification states it, fails: at level 1 a range-capable
    tier sends the byte 2, while 1/100*255 = 2.55 rounds to 3. *)
Lemma brightness_byte_is_not_rounded :
  is_brightness_range A11 = true
  /\ SetBrightness A11 1
     = ([Acquire; Put (WriteData_fn, [0xCE; 2; 0; 0; 0; 0; 0; 0; 0; 0xCE]);
         Release], Ok tt)
  /\ brightness_range_level 1 = Ok 2
  /\ round_level 1 = 3
  /\ brightness_range_level 1 <> Ok (round_level 1).
Proof.
  split; [reflexivity|].
  split; [vm_compute; reflexivity|].
  split; [vm_compute; reflexivity|].
  split; [reflexivity|].
  vm_compute. intros H. discriminate H.
Qed.

(** C6, amended: on a range-capable tier, for every level in 0..100 the
    payload byte is level * 255 / 100 truncated to an integer (not rounded
    to the nearest), it lies in 0..255, and it is non-decreasing in the
    level. *)
Theorem range_brightness_truncated (sub_revision : SubRevision)
  (level_user level_user' : Z) :
  is_brightness_range sub_revision = true ->
  0 <= level_user <= 100 ->
  level_user <= level_user' <= 100 ->
  SetBrightness sub_revision level_user
  = ([Acquire;
      Put (WriteData_fn, [0xCE; level_user * 255 / 100; 0; 0; 0; 0; 0; 0; 0; 0xCE]);
      Release], Ok tt)
  /\ brightness_range_level level_user = Ok (level_user * 255 / 100)
  /\ brightness_range_level level_user' = Ok (level_user' * 255 / 100)
  /\ 0 <= level_user * 255 / 100 <= 255
  /\ level_user * 255 / 100 <= level_user' * 255 / 100.
Proof.
  intros Htier Hrange Hrange'.
  assert (Hbyte : 0 <= level_user * 255 / 100 <= 255).
  { split; [apply Z.div_pos; lia|].
    apply Z.div_le_upper_bound; lia. }
  split.
  - unfold SetBrightness.
    rewrite Htier, SetBrightness_asserted by assumption.
    rewrite brightness_range_level_truncates by assumption.
    cbn [lift bind].
    rewrite (SendCommand_queued SET_BRIGHTNESS _
               [0xCE; level_user * 255 / 100; 0; 0; 0; 0; 0; 0; 0; 0xCE]).
    + reflexivity.
    + rewrite byteBuffer_of_short; [reflexivity | simpl; lia|].
      constructor; [lia | constructor].
  - split; [apply brightness_range_level_truncates; assumption|].
    split; [apply brightness_range_level_truncates; lia|].
    split; [exact Hbyte|].
    apply Z.div_le_mono; lia.
Qed.

Lemma range_brightness_truncated_witness :
  SetBrightness A12 50
  = ([Acquire; Put (WriteData_fn, [0xCE; 127; 0; 0; 0; 0; 0; 0; 0; 0xCE]);
      Release], Ok tt)
  /\ brightness_range_level 50 = Ok 127
  /\ brightness_range_level 51 = Ok 130
  /\ 0 <= 127 <= 255
  /\ 127 <= 130.
Proof.
  apply (range_brightness_truncated A12 50 51); [reflexivity | lia | lia].
Defined.

(** ** The handshake *)

(** C4: a reply of 5 bytes makes Hello raise.  The three warnings are
    logged, then [response[6]] is out of range and IndexError leaves the
    method. *)
Theorem Hello_reply_of_5_bytes_raises :
  Hello A01 false [0xCA; 72; 69; 76; 76]
  = ([SerialWrite [0xCA; 72; 69; 76; 76; 79; 0; 0; 0; 0xCA];
      Log Warning "Device not recognised (short response to HELLO)";
      Log Warning "Device not recognised (bad framing)";
      Log Warning "Device not recognised (No HELLO; got b'HELL')"],
     Raise IndexError).
Proof. vm_compute. reflexivity. Qed.

(** An empty reply, which is what a read timeout gives, raises as well, at
    [response[0]]. *)
Lemma Hello_empty_reply_raises :
  Hello A01 false []
  = ([SerialWrite [0xCA; 72; 69; 76; 76; 79; 0; 0; 0; 0xCA];
      Log Warning "Device not recognised (short response to HELLO)"],
     Raise IndexError).
Proof. vm_compute. reflexivity. Qed.

(** The reply of the specification's example sets the tier A11. *)
Lemma Hello_reply_A11 :
  outcome (Hello A01 false [0xCA; 72; 69; 76; 76; 79; 0x0A; 0x11; 0; 0xCA])
  = Ok A11.
Proof. vm_compute. reflexivity. Qed.

Lemma outcome_bind {A B : Type} (m : M A) (f : A -> M B) :
  outcome (bind m f)
  = match outcome m with
    | Ok a => outcome (f a)
    | Raise e => Raise e
    end.
Proof.
  destruct m as [t [a | e]]; simpl; [|reflexivity].
  destruct (f a) as [t' r]. reflexivity.
Qed.

Lemma outcome_warn_if (c : bool) (e : event) :
  outcome (if c then emit e else ret tt) = Ok tt.
Proof. destruct c; reflexivity. Qed.

Lemma outcome_SendCommand_hello (timed_out : bool) :
  outcome (SendCommand HELLO (Some hello) true timed_out) = Ok tt.
Proof. destruct timed_out; reflexivity. Qed.

Lemma outcome_bad_framing (response : list Z) (first : Z) :
  response <> [] ->
  exists bad,
    outcome (if negb (first =? Command_value HELLO)
             then ret true
             else last <- lift (getitem response (-1)) ;;
                  ret (negb (last =? Command_value HELLO))) = Ok bad.
Proof.
  intros Hne. destruct (negb _); [exists true; reflexivity|].
  unfold getitem. cbn [Z.ltb Z.compare].
  replace ((0 <=? -1 + len response) && (-1 + len response <? len response))
    with true.
  - eexists. reflexivity.
  - symmetry. unfold len. destruct response as [|b rest]; [contradiction|].
    simpl List.length.
    apply andb_true_intro; split; [apply Z.leb_le | apply Z.ltb_lt]; lia.
Qed.

(** Every reply of fewer than 7 bytes raises IndexError, whatever its
    content, the tier on entry and the fate of the write. *)
Lemma Hello_short_reply_raises (sub_revision : SubRevision) (timed_out : bool)
  (response : list Z) :
  (List.length response <= 6)%nat ->
  outcome (Hello sub_revision timed_out response) = Raise IndexError.
Proof.
  intros Hlen. unfold Hello.
  rewrite outcome_bind, outcome_SendCommand_hello.
  rewrite outcome_bind, outcome_warn_if.
  rewrite outcome_bind.
  destruct response as [|first rest]; [reflexivity|].
  rewrite getitem_in_range by (unfold len; simpl List.length; lia).
  cbn [lift outcome snd].
  rewrite outcome_bind.
  match goal with
  | |- context [outcome (if negb (?x =? _) then ret true else _)] =>
      destruct (outcome_bad_framing (first :: rest) x) as [bad Hbad];
      [discriminate | rewrite Hbad]
  end.
  rewrite outcome_bind, outcome_warn_if.
  rewrite outcome_bind, outcome_warn_if.
  rewrite outcome_bind.
  rewrite getitem_out_of_range by (unfold len; simpl List.length in *; lia).
  reflexivity.
Qed.

(** A reply of 8 bytes or more never raises: whatever is wrong with it is
    only logged, and the tier changes only when byte 6 is 0x0A and byte 7 is
    one of the four known values. *)
Lemma Hello_reply_of_8_bytes_returns (sub_revision : SubRevision)
  (timed_out : bool) (response : list Z) :
  (8 <= List.length response)%nat ->
  exists sub_revision',
    outcome (Hello sub_revision timed_out response) = Ok sub_revision'
    /\ (sub_revision' = sub_revision
        \/ nth 6 response 0 = 0xA
           /\ SubRevision_value sub_revision' = 0xA00 + nth 7 response 0).
Proof.
  intros Hlen. unfold Hello.
  rewrite outcome_bind, outcome_SendCommand_hello.
  rewrite outcome_bind, outcome_warn_if.
  rewrite outcome_bind.
  rewrite getitem_in_range by (unfold len; lia).
  cbn [lift outcome snd].
  rewrite outcome_bind.
  match goal with
  | |- context [outcome (if negb (?x =? _) then ret true else _)] =>
      destruct (outcome_bad_framing response x) as [bad Hbad];
      [intros ->; simpl in Hlen; lia | rewrite Hbad]
  end.
  rewrite outcome_bind, outcome_warn_if.
  rewrite outcome_bind, outcome_warn_if.
  rewrite outcome_bind.
  rewrite getitem_in_range by (unfold len; lia).
  cbn [lift outcome snd].
  rewrite outcome_bind.
  change (Z.to_nat 6) with 6%nat.
  destruct (Z.eqb_spec (nth 6 response 0) 0xA) as [H6 | H6].
  - rewrite outcome_bind.
    rewrite getitem_in_range by (unfold len; lia).
    cbn [lift outcome snd]. change (Z.to_nat 7) with 7%nat.
    destruct (Z.eqb_spec (nth 7 response 0) 0x01) as [H7 | _];
      [exists A01; split; [reflexivity | right; rewrite H7; split; [exact H6 | reflexivity]]|].
    destruct (Z.eqb_spec (nth 7 response 0) 0x02) as [H7 | _];
      [exists A02; split; [reflexivity | right; rewrite H7; split; [exact H6 | reflexivity]]|].
    destruct (Z.eqb_spec (nth 7 response 0) 0x11) as [H7 | _];
      [exists A11; split; [reflexivity | right; rewrite H7; split; [exact H6 | reflexivity]]|].
    destruct (Z.eqb_spec (nth 7 response 0) 0x12) as [H7 | _];
      [exists A12; split; [reflexivity | right; rewrite H7; split; [exact H6 | reflexivity]]|].
    exists sub_revision. split; [reflexivity | left; reflexivity].
  - exists sub_revision. split; [reflexivity | left; reflexivity].
Qed.

(** ** Traces of sequenced methods *)

Lemma bind_ok {A B : Type} (m : M A) (f : A -> M B) (t : list event) (a : A) :
  m = (t, Ok a) -> bind m f = (t ++ trace (f a), outcome (f a)).
Proof. intros ->. simpl. destruct (f a) as [t' r]. reflexivity. Qed.

Lemma bind_ret {A B : Type} (a : A) (f : A -> M B) : bind (ret a) f = f a.
Proof. unfold bind, ret. destruct (f a) as [t r]. reflexivity. Qed.

Lemma bind_lift_ok {A B : Type} (a : A) (f : A -> M B) :
  bind (lift (Ok a)) f = f a.
Proof. apply bind_ret. Qed.

(** ** The bounding box of a paint *)

Lemma split_high_byte (v : Z) : Z.land (Z.shiftr v 8) 255 = (v / 256) mod 256.
Proof. rewrite land_255_mod, Z.shiftr_div_pow2 by lia. reflexivity. Qed.

Lemma big_endian_bytes (v : Z) : Forall (fun b => 0 <= b < 256) (big_endian v).
Proof.
  unfold big_endian.
  repeat constructor; apply Z.mod_pos_bound; lia.
Qed.

Lemma bounding_box_payload_bytes (x0 y0 x1 y1 : Z) :
  Forall (fun b => 0 <= b < 256) (bounding_box_payload x0 y0 x1 y1).
Proof.
  unfold bounding_box_payload.
  repeat (apply Forall_app; split); apply big_endian_bytes.
Qed.

(** C8, as the specification states it, fails: on a 320 by 480 display an
    image of 321 by 1 pixels painted with x = y = width = height = 0 is
    given the width of the display, and the frame carries the box
    (0, 0, 319, 0), not (0, 0, 320, 0). *)
Lemma oversized_image_takes_display_size :
  let image := mkImage (321, 1) (fun _ _ => (255, 255, 255)) in
  hd_error (puts (trace (DisplayPILImage 320 480 image 0 0 0 0)))
  = Some (WriteData_fn, [0xCC; 0; 0; 0; 0; 1; 63; 0; 0; 0xCC])
  /\ bounding_box_payload 0 0 (fst (size image) - 1) (snd (size image) - 1)
     = [0; 0; 0; 0; 1; 64; 0; 0]
  /\ hd_error (puts (trace (DisplayPILImage 320 480 image 0 0 0 0)))
     <> Some (WriteData_fn,
              0xCC :: bounding_box_payload 0 0 (fst (size image) - 1)
                                              (snd (size image) - 1)
                   ++ [0xCC]).
Proof.
  split; [vm_compute; reflexivity|].
  split; [vm_compute; reflexivity|].
  vm_compute. intros H. discriminate H.
Qed.

(** C8, amended: for every non-empty image that is not larger than the
    display, DisplayPILImage with x = y = width = height = 0 resolves the
    width and height to the native size (w, h) of the image, puts first the
    DISPLAY_BITMAP frame whose 8 payload bytes are the big-endian split of
    the inclusive box (0, 0, w-1, h-1), and then paints w by h pixels. *)
Theorem native_size_bounding_box (get_width get_height : Z) (image : Image) :
  let w := fst (size image) in
  let h := snd (size image) in
  0 < w <= get_width ->
  0 < h <= get_height ->
  DisplayPILImage get_width get_height image 0 0 0 0
  = ([Acquire;
      Put (WriteData_fn,
           0xCC :: bounding_box_payload 0 0 (w - 1) (h - 1) ++ [0xCC]);
      Release] ++ trace (send_pixels get_width image w h),
     outcome (send_pixels get_width image w h))
  /\ bounding_box_payload 0 0 (w - 1) (h - 1)
     = [0; 0; 0; 0;
        ((w - 1) / 256) mod 256; (w - 1) mod 256;
        ((h - 1) / 256) mod 256; (h - 1) mod 256].
Proof.
  intros w h Hw Hh. split; [|reflexivity].
  unfold DisplayPILImage. fold w h.
  change (0 =? 0) with true. cbv iota.
  replace (h >? get_height) with false by (symmetry; rewrite Z.gtb_ltb; apply Z.ltb_ge; lia).
  replace (w >? get_width) with false by (symmetry; rewrite Z.gtb_ltb; apply Z.ltb_ge; lia).
  replace (0 <=? get_width) with true by (symmetry; apply Z.leb_le; lia).
  replace (0 <=? get_height) with true by (symmetry; apply Z.leb_le; lia).
  replace (h >? 0) with true by (symmetry; rewrite Z.gtb_ltb; apply Z.ltb_lt; lia).
  replace (w >? 0) with true by (symmetry; rewrite Z.gtb_ltb; apply Z.ltb_lt; lia).
  unfold py_assert. rewrite !bind_ret.
  rewrite !split_high_byte, !land_255_mod. rewrite !Z.add_0_l.
  apply (bind_ok _ (fun _ : unit => send_pixels get_width image w h) _ tt).
  apply SendCommand_queued.
  change [(0 / 256) mod 256; 0 mod 256; (0 / 256) mod 256; 0 mod 256;
          ((w - 1) / 256) mod 256; (w - 1) mod 256;
          ((h - 1) / 256) mod 256; (h - 1) mod 256]
    with (bounding_box_payload 0 0 (w - 1) (h - 1)).
  rewrite byteBuffer_of_short.
  - reflexivity.
  - simpl; lia.
  - apply bounding_box_payload_bytes.
Qed.

Lemma native_size_bounding_box_witness :
  let image := mkImage (2, 3) (fun _ _ => (255, 255, 255)) in
  DisplayPILImage 320 480 image 0 0 0 0
  = ([Acquire;
      Put (WriteData_fn, 0xCC :: bounding_box_payload 0 0 (2 - 1) (3 - 1) ++ [0xCC]);
      Release] ++ trace (send_pixels 320 image 2 3),
     outcome (send_pixels 320 image 2 3)).
Proof.
  apply (native_size_bounding_box 320 480
           (mkImage (2, 3) (fun _ _ => (255, 255, 255)))); simpl; lia.
Defined.

(** ** The pixel lines of a paint *)

Section Chunking.

Variable cap : Z.
Variable A : Type.
Variable enc : A -> list Z.
Variable body : A -> list Z -> M (list Z).
Variable valid : A -> Prop.

Hypothesis body_chunked :
  forall x line, valid x -> buffering cap line -> chunked cap line (enc x) (body x line).

(** A loop whose body sends full lines sends full lines. *)
Lemma for_each_chunked (xs : list A) :
  Forall valid xs ->
  forall line, buffering cap line ->
  chunked cap line (flat_map enc xs) (for_each xs body line).
Proof.
  induction 1 as [|x xs Hx Hxs IH]; intros line Hline.
  - exists [], line. simpl. rewrite app_nil_r. repeat split; auto.
    apply Hline. apply Hline.
  - destruct (body_chunked x line Hx Hline)
      as (lines1 & line1 & Hbody & Hcat1 & Hfull1 & Hbuf1).
    destruct (IH line1 Hbuf1) as (lines2 & line2 & Hrest & Hcat2 & Hfull2 & Hbuf2).
    exists (lines1 ++ lines2), line2.
    split.
    + cbn [for_each]. rewrite (bind_ok _ _ _ _ Hbody), Hrest.
      unfold trace, outcome. cbn [fst snd]. rewrite map_app. reflexivity.
    + split.
      * cbn [flat_map]. rewrite concat_app, <- app_assoc, Hcat2.
        rewrite !app_assoc. rewrite Hcat1. reflexivity.
      * split; [apply Forall_app; split; assumption | exact Hbuf2].
Qed.

End Chunking.

Lemma len_app (a b : list Z) : len (a ++ b) = len a + len b.
Proof. unfold len. rewrite length_app. lia. Qed.

Lemma in_range (n i : Z) : In i (range n) <-> 0 <= i < n.
Proof.
  unfold range. rewrite in_map_iff. split.
  - intros (k & <- & Hk). apply in_seq in Hk. lia.
  - intros Hi. exists (Z.to_nat i). split; [lia|]. apply in_seq. lia.
Qed.

Lemma length_range (n : Z) : 0 <= n -> len (range n) = n.
Proof.
  intros Hn. unfold len, range. rewrite length_map, length_seq. lia.
Qed.

Lemma pix_getitem_inside (image : Image) (w h : Z) :
  0 <= w < fst (size image) -> 0 <= h < snd (size image) ->
  pix_getitem image w h = Ok (pixels image w h).
Proof.
  intros Hw Hh. unfold pix_getitem.
  replace (0 <=? w) with true by (symmetry; apply Z.leb_le; lia).
  replace (w <? fst (size image)) with true by (symmetry; apply Z.ltb_lt; lia).
  replace (0 <=? h) with true by (symmetry; apply Z.leb_le; lia).
  replace (h <? snd (size image)) with true by (symmetry; apply Z.ltb_lt; lia).
  reflexivity.
Qed.

(** One pass through the body of the inner loop. *)
Lemma pixel_body_chunked (get_width : Z) (image : Image) (h w : Z)
  (line : list Z) :
  0 < get_width ->
  0 <= w < fst (size image) -> 0 <= h < snd (size image) ->
  rgb_pixel (pixels image w h) ->
  buffering (get_width * 8) line ->
  chunked (get_width * 8) line (little_endian (rgb_word (pixels image w h)))
    (pixel_body get_width image h w line).
Proof.
  intros Hgw Hw Hh Hrgb [Hlt [k Hk]]. unfold pixel_body.
  rewrite pix_getitem_inside by assumption. rewrite bind_lift_ok.
  destruct (pixels image w h) as [[r g] b]. destruct Hrgb as (Hr & Hg & Hb).
  rewrite struct_pack_H_bytes by (apply rgb_word_range; assumption).
  fold (little_endian (rgb_word (r, g, b))).
  set (packed := little_endian (rgb_word (r, g, b))).
  assert (Hpacked : len packed = 2) by reflexivity.
  rewrite bind_lift_ok.
  destruct (Z.leb_spec (get_width * 8) (len (line ++ packed))) as [Hfull | Hroom];
    rewrite len_app in *.
  - exists [line ++ packed], []. split; [reflexivity|].
    split; [simpl; rewrite !app_nil_r; reflexivity|].
    split.
    + constructor; [rewrite len_app; lia | constructor].
    + split; [unfold len; simpl; lia | exists 0; reflexivity].
  - exists [], (line ++ packed). split; [reflexivity|].
    split; [reflexivity|].
    split; [constructor|].
    split; [rewrite len_app; lia | exists (k + 1); rewrite len_app; lia].
Qed.

Lemma raster_row_length (image : Image) (w y : Z) :
  0 <= w -> len (raster_row image w y) = 2 * w.
Proof.
  intros Hw. unfold raster_row. rewrite <- (length_range w Hw) at 2.
  induction (range w) as [|x xs IH]; [reflexivity|].
  cbn [flat_map]. rewrite len_app, IH. unfold len. simpl List.length. lia.
Qed.

Lemma raster_length (image : Image) (w h : Z) :
  0 <= w -> 0 <= h -> len (raster image w h) = 2 * w * h.
Proof.
  intros Hw Hh. unfold raster. rewrite <- (length_range h Hh) at 2.
  induction (range h) as [|y ys IH]; [unfold len; simpl; lia|].
  cbn [flat_map]. rewrite len_app, IH, raster_row_length by assumption.
  unfold len. simpl List.length. lia.
Qed.

Lemma Forall_removelast {T : Type} (P : T -> Prop) (l : list T) :
  Forall P l -> Forall P (removelast l).
Proof.
  induction 1 as [|x l Hx Hl IH]; [constructor|].
  simpl. destruct l; [constructor | constructor; assumption].
Qed.

(** C9, as the specification states it, fails: a paint asked for 3 columns
    of an image that is 2 pixels wide and 1 high has the resolved width 3
    and height 1, passes the assertions and puts its frame; the third pixel
    is outside the image, IndexError leaves the loop, and no pixel line at
    all has been put, where the claim has 2 * 3 * 1 = 6 bytes of lines. *)
Lemma paint_beyond_the_image_sends_no_raster :
  let image := mkImage (2, 1) (fun _ _ => (255, 255, 255)) in
  resolved_width 320 image 3 = 3
  /\ resolved_height 480 image 0 = 1
  /\ DisplayPILImage 320 480 image 0 0 3 0
     = ([Acquire; Put (WriteData_fn, [0xCC; 0; 0; 0; 0; 0; 2; 0; 0; 0xCC]);
         Release; Acquire; Release], Raise IndexError)
  /\ send_pixels 320 image 3 1 = ([Acquire; Release], Raise IndexError)
  /\ 2 * 3 * 1 = 6
  /\ ~ (exists lines,
          puts (trace (send_pixels 320 image 3 1))
          = map (pair WriteLine_fn) lines
          /\ len (concat lines) = 2 * 3 * 1).
Proof.
  cbv zeta.
  split; [reflexivity|].
  split; [reflexivity|].
  split; [vm_compute; reflexivity|].
  split; [vm_compute; reflexivity|].
  split; [reflexivity|].
  intros (lines & Hputs & Hlen).
  change (puts (trace (send_pixels 320
                         (mkImage (2, 1) (fun _ _ => (255, 255, 255))) 3 1)))
    with (@nil job) in Hputs.
  destruct lines as [|l lines]; [|discriminate Hputs].
  discriminate Hlen.
Qed.

(** C9, amended: a paint of resolved width w and height h that lies inside
    the image (w and h no larger than the native width and height) encodes
    the pixels in raster order, two bytes a pixel; a line is put on the queue
    each time the buffer reaches 8 * get_width() bytes, the rest of the
    buffer is put after the last row, and the lines put end to end are the
    2*w*h bytes of the raster-order encoding. *)
Theorem pixel_lines_are_the_raster (get_width : Z) (image : Image) (w h : Z) :
  0 < get_width ->
  0 <= w <= fst (size image) ->
  0 <= h <= snd (size image) ->
  (forall x y, 0 <= x < w -> 0 <= y < h -> rgb_pixel (pixels image x y)) ->
  exists lines,
    send_pixels get_width image w h
    = (Acquire :: map line_job lines ++ [Release], Ok tt)
    /\ concat lines = raster image w h
    /\ len (raster image w h) = 2 * w * h
    /\ Forall (fun l => len l = get_width * 8) (removelast lines)
    /\ Forall (fun l => 0 < len l <= get_width * 8) lines.
Proof.
  intros Hgw Hw Hh Hrgb.
  assert (Hstart : buffering (get_width * 8) [])
    by (split; [unfold len; simpl; lia | exists 0; reflexivity]).
  assert (Hrows :
    chunked (get_width * 8) [] (raster image w h)
      (for_each (range h)
         (fun y line => for_each (range w) (pixel_body get_width image y) line)
         [])).
  { apply (for_each_chunked (get_width * 8) Z (raster_row image w)
             (fun y line => for_each (range w) (pixel_body get_width image y) line)
             (fun y => 0 <= y < h)).
    - intros y line Hy Hline.
      apply (for_each_chunked (get_width * 8) Z
               (fun x => little_endian (rgb_word (pixels image x y)))
               (pixel_body get_width image y)
               (fun x => 0 <= x < w)).
      + intros x line0 Hx Hline0.
        apply pixel_body_chunked; try assumption; try lia.
        apply Hrgb; assumption.
      + apply Forall_forall. intros x Hx. apply in_range. exact Hx.
      + exact Hline.
    - apply Forall_forall. intros y Hy. apply in_range. exact Hy.
    - exact Hstart. }
  destruct Hrows as (lines & rest & Hloop & Hcat & Hfull & [Hlt [k Hk]]).
  simpl in Hcat.
  assert (Hbounded : Forall (fun l => 0 < len l <= get_width * 8) lines).
  { apply Forall_forall. intros l Hl.
    pose proof (proj1 (Forall_forall _ _) Hfull l Hl) as Hlen.
    cbv beta in Hlen. lia. }
  unfold send_pixels. rewrite (bind_ok _ _ _ _ Hloop).
  destruct (Z.ltb_spec 0 (len rest)) as [Hrest | Hempty].
  - exists (lines ++ [rest]).
    split.
    + unfold SendLine, emit, with_mutex, trace, outcome. cbn [fst snd].
      rewrite map_app. reflexivity.
    + split; [rewrite concat_app; simpl; rewrite app_nil_r; exact Hcat|].
      split; [apply raster_length; lia|].
      split; [rewrite removelast_last; exact Hfull|].
      apply Forall_app. split; [exact Hbounded|].
      constructor; [lia | constructor].
  - exists lines.
    assert (rest = []) as ->.
    { destruct rest; [reflexivity|]. unfold len in Hempty. simpl in Hempty. lia. }
    split.
    + unfold ret, with_mutex, trace, outcome. cbn [fst snd].
      rewrite app_nil_r. reflexivity.
    + split; [rewrite app_nil_r in Hcat; exact Hcat|].
      split; [apply raster_length; lia|].
      split; [apply Forall_removelast; exact Hfull | exact Hbounded].
Qed.

Lemma pixel_lines_are_the_raster_witness :
  let image := mkImage (2, 5) (fun x y => (255, 8 * x, 16 * y)) in
  exists lines,
    send_pixels 2 image 2 5 = (Acquire :: map line_job lines ++ [Release], Ok tt)
    /\ concat lines = raster image 2 5
    /\ len (raster image 2 5) = 2 * 2 * 5
    /\ Forall (fun l => len l = 2 * 8) (removelast lines)
    /\ Forall (fun l => 0 < len l <= 2 * 8) lines.
Proof.
  apply (pixel_lines_are_the_raster 2
           (mkImage (2, 5) (fun x y => (255, 8 * x, 16 * y))) 2 5).
  - lia.
  - simpl; lia.
  - simpl; lia.
  - intros x y Hx Hy. cbv [rgb_pixel pixels]. lia.
Defined.

(** Six pixels on a display one pixel wide: a line of 8 bytes, then the 4
    bytes left. *)
Lemma send_pixels_example :
  send_pixels 1 (mkImage (3, 2) (fun x y => (255, 8 * x, 16 * y))) 3 2
  = ([Acquire;
      Put (WriteLine_fn, [248; 0; 248; 64; 248; 128; 248; 2]);
      Put (WriteLine_fn, [248; 66; 248; 130]);
      Release], Ok tt).
Proof. vm_compute. reflexivity. Qed.

(** ** Producers running side by side *)

Lemma nth_error_set_thread_same (ts : list (list event)) (i : nat)
  (t0 t : list event) :
  nth_error ts i = Some t0 -> nth_error (set_thread ts i t) i = Some t.
Proof.
  revert i. induction ts as [|t1 ts IH]; intros [|i] H; simpl in *;
    try discriminate; [reflexivity | apply IH; exact H].
Qed.

Lemma nth_error_set_thread_other (ts : list (list event)) (i j : nat)
  (t : list event) :
  i <> j -> nth_error (set_thread ts i t) j = nth_error ts j.
Proof.
  revert i j. induction ts as [|t1 ts IH]; intros [|i] [|j] H; simpl;
    try reflexivity; [contradiction | apply IH; congruence].
Qed.

Lemma puts_app (a b : list event) : puts (a ++ b) = puts a ++ puts b.
Proof.
  induction a as [|e a IH]; [reflexivity|].
  destruct e; simpl; rewrite IH; reflexivity.
Qed.

(** What one step does, event by event. *)
Lemma step_inv (s s' : system) (i : nat) :
  step s i = Some s' ->
  exists e rest,
    nth_error (threads s) i = Some (e :: rest)
    /\ threads s' = set_thread (threads s) i rest
    /\ match e with
       | Acquire => owner s = None /\ owner s' = Some i /\ queue s' = queue s
       | Release => owner s' = None /\ queue s' = queue s
       | Put j => owner s' = owner s /\ queue s' = queue s ++ [j]
       | _ => owner s' = owner s /\ queue s' = queue s
       end.
Proof.
  unfold step. intros H.
  destruct (nth_error (threads s) i) as [[|e rest]|]; try discriminate.
  exists e, rest. split; [reflexivity|].
  destruct e; try (injection H as <-; simpl; auto).
  destruct (owner s); [discriminate|].
  injection H as <-. simpl. auto.
Qed.

Lemma holds_owner (s : system) (i : nat) :
  holds s i = true <-> owner s = Some i.
Proof.
  unfold holds. destruct (owner s) as [j|]; split; intros H; try discriminate.
  - apply Nat.eqb_eq in H. congruence.
  - injection H as ->. apply Nat.eqb_refl.
Qed.

Lemma holds_other (s : system) (i j : nat) :
  owner s = Some i -> i <> j -> holds s j = false.
Proof.
  intros Ho Hne. unfold holds. rewrite Ho. apply Nat.eqb_neq. exact Hne.
Qed.

Lemma holds_free (s : system) (j : nat) : owner s = None -> holds s j = false.
Proof. intros Ho. unfold holds. rewrite Ho. reflexivity. Qed.

(** The locking discipline is kept by every step. *)
Lemma step_well_locked (s s' : system) (i : nat) :
  well_locked s -> step s i = Some s' -> well_locked s'.
Proof.
  intros Hwl Hstep.
  destruct (step_inv s s' i Hstep) as (e & rest & Hi & Hts & He).
  pose proof (Hwl i _ Hi) as Hdi.
  intros j t Hj. rewrite Hts in Hj.
  destruct (Nat.eq_dec i j) as [<- | Hne].
  - rewrite (nth_error_set_thread_same _ _ _ _ Hi) in Hj. injection Hj as <-.
    destruct e; simpl in Hdi.
    + destruct He as (_ & Ho' & _).
      apply andb_true_iff in Hdi. destruct Hdi as [_ Hrest].
      rewrite (proj2 (holds_owner s' i) Ho'). exact Hrest.
    + destruct He as (Ho' & _).
      apply andb_true_iff in Hdi. destruct Hdi as [_ Hrest].
      rewrite (holds_free s' i Ho'). exact Hrest.
    + destruct He as (Ho' & _).
      apply andb_true_iff in Hdi. destruct Hdi as [_ Hrest].
      unfold holds in *. rewrite Ho'. exact Hrest.
    + destruct He as (Ho' & _). unfold holds in *. rewrite Ho'. exact Hdi.
    + destruct He as (Ho' & _). unfold holds in *. rewrite Ho'. exact Hdi.
  - rewrite nth_error_set_thread_other in Hj by assumption.
    pose proof (Hwl j t Hj) as Hdj.
    destruct e; simpl in Hdi.
    + destruct He as (Ho & Ho' & _).
      rewrite (holds_free s j Ho) in Hdj.
      rewrite (holds_other s' i j Ho' Hne). exact Hdj.
    + destruct He as (Ho' & _).
      apply andb_true_iff in Hdi. destruct Hdi as [Hheld _].
      apply holds_owner in Hheld.
      rewrite (holds_other s i j Hheld Hne) in Hdj.
      rewrite (holds_free s' j Ho'). exact Hdj.
    + destruct He as (Ho' & _). unfold holds in *. rewrite Ho'. exact Hdj.
    + destruct He as (Ho' & _). unfold holds in *. rewrite Ho'. exact Hdj.
    + destruct He as (Ho' & _). unfold holds in *. rewrite Ho'. exact Hdj.
Qed.

Lemma init_well_locked (progs : list (list event)) :
  Forall (fun t => disciplined t = true) progs -> well_locked (init progs).
Proof.
  intros Hall i t Hi. simpl in Hi.
  rewrite (holds_free (init progs) i eq_refl).
  apply (proj1 (Forall_forall _ _) Hall t).
  apply nth_error_In with i. exact Hi.
Qed.

Section Block.

Variables before body after : list event.
Variable p : nat.

Hypothesis body_lock_free : forallb lock_free body = true.

Lemma lock_free_in_body (b1 b2 : list event) (e : event) :
  body = b1 ++ e :: b2 -> lock_free e = true.
Proof.
  intros Hb. apply (proj1 (forallb_forall _ _) body_lock_free).
  rewrite Hb. apply in_elt.
Qed.

(** While [p] is inside its block, no other thread changes the queue; once
    [p] is past it, the jobs of the block sit together in the queue. *)
Lemma step_block_state (s s' : system) (i : nat) :
  well_locked s ->
  block_state before body after p s ->
  step s i = Some s' ->
  block_state before body after p s'.
Proof.
  intros Hwl Hst Hstep.
  destruct (step_inv s s' i Hstep) as (e & rest & Hi & Hts & He).
  assert (Hgrow : exists q, queue s' = queue s ++ q).
  { destruct e; try (exists []; rewrite app_nil_r; tauto || apply He).
    exists [j]. apply He. }
  destruct (Nat.eq_dec i p) as [-> | Hne].
  - (* the step is a step of [p] *)
    destruct Hst as [b0 b' Hbefore Hp Hincl
                    | b1 b2 q1 Hb Hp Ho Hq Hincl
                    | a0 a' q1 q2 Ha Hp Hq Hincl];
      rewrite Hp in Hi.
    + destruct b' as [|e' b'']; simpl in Hi; injection Hi as <- <-.
      * destruct He as (_ & Ho' & Hq').
        apply (Inside _ _ _ _ _ [] body (queue s)).
        -- reflexivity.
        -- rewrite Hts. apply (nth_error_set_thread_same _ _ _ _ Hp).
        -- exact Ho'.
        -- simpl. rewrite app_nil_r. exact Hq'.
        -- rewrite app_nil_r in Hbefore. subst b0. exact Hincl.
      * apply (Waiting _ _ _ _ _ (b0 ++ [e']) b'').
        -- rewrite <- app_assoc. exact Hbefore.
        -- rewrite Hts. apply (nth_error_set_thread_same _ _ _ _ Hp).
        -- destruct Hgrow as [q Hq']. rewrite puts_app.
           apply incl_app.
           ++ rewrite Hq'. apply incl_appl. exact Hincl.
           ++ destruct e'; simpl; try apply incl_nil_l.
              destruct He as (_ & Hq''). rewrite Hq''.
              apply incl_appr. apply incl_refl.
    + destruct b2 as [|e' b2']; simpl in Hi; injection Hi as <- <-.
      * destruct He as (Ho' & Hq').
        apply (Past _ _ _ _ _ [] after q1 []).
        -- reflexivity.
        -- rewrite Hts. apply (nth_error_set_thread_same _ _ _ _ Hp).
        -- rewrite app_nil_r in Hb. rewrite app_nil_r, Hq', Hq, Hb. reflexivity.
        -- exact Hincl.
      * pose proof (lock_free_in_body _ _ _ Hb) as Hfree.
        apply (Inside _ _ _ _ _ (b1 ++ [e']) b2' q1).
        -- rewrite <- app_assoc. exact Hb.
        -- rewrite Hts. apply (nth_error_set_thread_same _ _ _ _ Hp).
        -- destruct e'; try discriminate Hfree;
             destruct He as (Ho' & _); rewrite Ho'; exact Ho.
        -- rewrite puts_app.
           destruct e'; try discriminate Hfree;
             destruct He as (_ & Hq'); rewrite Hq', Hq; simpl;
             rewrite ?app_nil_r, <- ?app_assoc; reflexivity.
        -- exact Hincl.
    + destruct Hgrow as [q Hq']. injection Hi as ->.
      apply (Past _ _ _ _ _ (a0 ++ [e]) rest q1 (q2 ++ q)).
      * rewrite <- app_assoc. exact Ha.
      * rewrite Hts. apply (nth_error_set_thread_same _ _ _ _ Hp).
      * rewrite Hq', Hq, <- !app_assoc. reflexivity.
      * exact Hincl.
  - (* the step is a step of another thread *)
    assert (Hsame : nth_error (threads s') p = nth_error (threads s) p)
      by (rewrite Hts; apply nth_error_set_thread_other; exact Hne).
    destruct Hst as [b0 b' Hbefore Hp Hincl
                    | b1 b2 q1 Hb Hp Ho Hq Hincl
                    | a0 a' q1 q2 Ha Hp Hq Hincl].
    + apply (Waiting _ _ _ _ _ b0 b'); [exact Hbefore | congruence |].
      destruct Hgrow as [q Hq']. rewrite Hq'. apply incl_appl. exact Hincl.
    + pose proof (Hwl i _ Hi) as Hdi.
      assert (Hp_ne : p <> i) by congruence.
      rewrite (holds_other s p i Ho Hp_ne) in Hdi.
      destruct e; simpl in Hdi; try discriminate Hdi.
      * destruct He as (Hfree & _). congruence.
      * destruct He as (Ho' & Hq').
        apply (Inside _ _ _ _ _ b1 b2 q1);
          [exact Hb | congruence | congruence | congruence | exact Hincl].
      * destruct He as (Ho' & Hq').
        apply (Inside _ _ _ _ _ b1 b2 q1);
          [exact Hb | congruence | congruence | congruence | exact Hincl].
    + destruct Hgrow as [q Hq'].
      apply (Past _ _ _ _ _ a0 a' q1 (q2 ++ q)); [exact Ha | congruence | | exact Hincl].
      rewrite Hq', Hq, <- !app_assoc. reflexivity.
Qed.

Lemma run_block_state (schedule : list nat) :
  forall s s',
    well_locked s ->
    block_state before body after p s ->
    run s schedule = Some s' ->
    well_locked s' /\ block_state before body after p s'.
Proof.
  induction schedule as [|i schedule IH]; intros s s' Hwl Hst Hrun; simpl in Hrun.
  - injection Hrun as <-. split; assumption.
  - destruct (step s i) as [s1|] eqn:Hstep; [|discriminate].
    apply (IH s1 s').
    + apply (step_well_locked s s1 i); assumption.
    + apply (step_block_state s s1 i); assumption.
    + exact Hrun.
Qed.

(** In every run of disciplined threads, once thread [p] has finished, the
    jobs of its block are together in the queue, after every job that [p]
    put before the block. *)
Lemma block_stays_together (progs : list (list event)) (schedule : list nat)
  (s' : system) :
  Forall (fun t => disciplined t = true) progs ->
  nth_error progs p = Some (before ++ Acquire :: body ++ Release :: after) ->
  run (init progs) schedule = Some s' ->
  nth_error (threads s') p = Some [] ->
  exists q1 q2, queue s' = q1 ++ puts body ++ q2 /\ incl (puts before) q1.
Proof.
  intros Hall Hp Hrun Hdone.
  destruct (run_block_state schedule (init progs) s') as [_ Hst].
  - apply init_well_locked. exact Hall.
  - apply (Waiting _ _ _ _ _ [] before); [reflexivity | exact Hp |].
    apply incl_nil_l.
  - exact Hrun.
  - destruct Hst as [b0 b' _ Hp' _ | b1 b2 q1 _ Hp' _ _ _ | a0 a' q1 q2 _ _ Hq Hincl].
    + rewrite Hp' in Hdone. destruct b'; discriminate Hdone.
    + rewrite Hp' in Hdone. destruct b2; discriminate Hdone.
    + exists q1, q2. split; assumption.
Qed.

End Block.

(** ** The events of an image paint *)

Lemma trace_bind {A B : Type} (m : M A) (f : A -> M B) :
  trace (bind m f)
  = trace m ++ match outcome m with
               | Ok a => trace (f a)
               | Raise _ => []
               end.
Proof.
  destruct m as [t [a | e]]; simpl.
  - destruct (f a) as [t' r]. reflexivity.
  - rewrite app_nil_r. reflexivity.
Qed.

Lemma only_puts_bind {A B : Type} (m : M A) (f : A -> M B) :
  forallb is_put (trace m) = true ->
  (forall a, forallb is_put (trace (f a)) = true) ->
  forallb is_put (trace (bind m f)) = true.
Proof.
  intros Hm Hf. rewrite trace_bind, forallb_app, Hm.
  destruct (outcome m); [apply Hf | reflexivity].
Qed.

Lemma for_each_only_puts {A S : Type} (xs : list A) (body : A -> S -> M S) :
  (forall x s, forallb is_put (trace (body x s)) = true) ->
  forall s, forallb is_put (trace (for_each xs body s)) = true.
Proof.
  intros Hbody. induction xs as [|x xs IH]; intros s; [reflexivity|].
  cbn [for_each]. apply only_puts_bind; [apply Hbody | apply IH].
Qed.

Lemma pixel_body_only_puts (get_width : Z) (image : Image) (h w : Z)
  (line : list Z) :
  forallb is_put (trace (pixel_body get_width image h w line)) = true.
Proof.
  unfold pixel_body.
  apply only_puts_bind; [reflexivity | intros p].
  apply only_puts_bind; [reflexivity | intros packed].
  destruct (get_width * 8 <=? len (line ++ packed)); reflexivity.
Qed.

(** The events of the [with] block of a paint: the mutex is taken, jobs are
    put, the mutex is freed; an exception in the loops changes nothing to
    that. *)
Lemma send_pixels_shape (get_width : Z) (image : Image) (w h : Z) :
  exists body,
    trace (send_pixels get_width image w h) = Acquire :: body ++ [Release]
    /\ forallb is_put body = true.
Proof.
  unfold send_pixels, with_mutex.
  match goal with
  | |- context [let (t, r) := ?m in _] =>
      exists (trace m); assert (Hputs : forallb is_put (trace m) = true)
  end.
  - apply only_puts_bind.
    + apply for_each_only_puts. intros y line.
      apply for_each_only_puts. intros x line0. apply pixel_body_only_puts.
    + intros line. destruct (0 <? len line); reflexivity.
  - split; [|exact Hputs].
    match goal with
    | |- context [let (t, r) := ?m in _] => destruct m as [t r]
    end.
    reflexivity.
Qed.

Lemma SendCommand_shape (cmd : Command) (payload : option (list Z)) :
  SendCommand cmd payload false false = ([], outcome (SendCommand cmd payload false false))
  \/ exists frame,
       SendCommand cmd payload false false
       = ([Acquire; Put (WriteData_fn, frame); Release], Ok tt).
Proof.
  unfold SendCommand. destruct (byteBuffer_of cmd payload) as [frame | e].
  - right. exists frame. reflexivity.
  - left. reflexivity.
Qed.

(** A paint either stops before it touches the queue, or runs two [with]
    blocks: one for the command frame, one for all the pixel lines. *)
Lemma DisplayPILImage_shape (get_width get_height : Z) (image : Image)
  (x y image_width image_height : Z) :
  trace (DisplayPILImage get_width get_height image x y image_width image_height)
  = []
  \/ exists frame body,
       trace (DisplayPILImage get_width get_height image x y
                image_width image_height)
       = [Acquire; Put (WriteData_fn, frame); Release]
           ++ Acquire :: body ++ [Release]
       /\ forallb is_put body = true.
Proof.
  unfold DisplayPILImage.
  do 4 match goal with
       | |- context [bind (py_assert ?c) ?k] =>
           destruct c;
           [change (py_assert true) with (ret tt); rewrite (bind_ret tt k)
           | left; reflexivity]
       end.
  match goal with
  | |- context [SendCommand ?c ?p false false] =>
      destruct (SendCommand_shape c p) as [Hnone | [frame Hframe]]
  end.
  - left. rewrite trace_bind, Hnone. cbn [trace fst outcome snd].
    destruct (outcome _); [|reflexivity].
    exfalso. revert Hnone. unfold SendCommand.
    destruct (byteBuffer_of _ _); discriminate.
  - right.
    match goal with
    | |- context [send_pixels ?gw ?im ?w ?h] =>
        destruct (send_pixels_shape gw im w h) as (body & Hbody & Hputs)
    end.
    exists frame, body. split; [|exact Hputs].
    rewrite trace_bind, Hframe. cbn [trace fst outcome snd].
    rewrite <- Hbody. reflexivity.
Qed.

Lemma only_puts_lock_free (body : list event) :
  forallb is_put body = true -> forallb lock_free body = true.
Proof.
  intros H. apply forallb_forall. intros e He.
  pose proof (proj1 (forallb_forall _ _) H e He) as Hput.
  destruct e; try discriminate Hput. reflexivity.
Qed.

Lemma only_puts_disciplined (body rest : list event) :
  forallb is_put body = true ->
  disciplined_from true (body ++ rest) = disciplined_from true rest.
Proof.
  induction body as [|e body IH]; intros H; [reflexivity|].
  simpl in H. apply andb_true_iff in H. destruct H as [He Hbody].
  destruct e; try discriminate He. simpl. apply IH. exact Hbody.
Qed.

(** The methods keep the locking discipline. *)
Lemma SendCommand_disciplined (cmd : Command) (payload : option (list Z)) :
  disciplined (trace (SendCommand cmd payload false false)) = true.
Proof.
  destruct (SendCommand_shape cmd payload) as [-> | [frame ->]]; reflexivity.
Qed.

Lemma DisplayPILImage_disciplined (get_width get_height : Z) (image : Image)
  (x y image_width image_height : Z) :
  disciplined
    (trace (DisplayPILImage get_width get_height image x y
              image_width image_height)) = true.
Proof.
  destruct (DisplayPILImage_shape get_width get_height image x y
              image_width image_height) as [-> | (frame & body & -> & Hputs)];
    [reflexivity|].
  unfold disciplined. cbn [app disciplined_from negb andb].
  rewrite only_puts_disciplined by assumption. reflexivity.
Qed.

Lemma SetBrightness_disciplined (sub_revision : SubRevision) (level_user : Z) :
  disciplined (trace (SetBrightness sub_revision level_user)) = true.
Proof.
  unfold SetBrightness. rewrite trace_bind.
  destruct ((0 <=? level_user) && (level_user <=? 100)); [|reflexivity].
  cbn [py_assert ret trace fst outcome snd app]. rewrite trace_bind.
  destruct (is_brightness_range sub_revision).
  - destruct (brightness_range_level level_user) as [level | e]; [|reflexivity].
    cbn [lift trace fst outcome snd app]. apply SendCommand_disciplined.
  - cbn. apply SendCommand_disciplined.
Qed.

(** ** The ordering of an image paint among other producers *)




(** * More of the driver *)

(** ** Frames, whatever the payload *)

Lemma padded_payload_length (payload : option (list Z)) :
  (8 <= List.length (padded_payload payload))%nat.
Proof.
  destruct payload as [p|]; [|simpl; lia].
  unfold padded_payload, len.
  destruct (Z.ltb_spec (Z.of_nat (List.length p)) 8) as [Hlt | Hge].
  - rewrite length_app, repeat_length. lia.
  - lia.
Qed.

(** The ten assignments never index out of the payload; they fail, with
    ValueError, exactly when one of the eight values copied is no byte. *)
Lemma byteBuffer_of_total (cmd : Command) (payload : option (list Z)) :
  byteBuffer_of cmd payload
  = if forallb is_byte (firstn 8 (padded_payload payload))
    then Ok (Command_value cmd :: firstn 8 (padded_payload payload)
               ++ [Command_value cmd])
    else Raise ValueError.
Proof.
  pose proof (padded_payload_length payload) as Hlen.
  unfold byteBuffer_of. revert Hlen.
  generalize (padded_payload payload) as p. intros p Hlen.
  do 8 (destruct p as [|? p]; [simpl in Hlen; lia|]).
  rewrite !getitem_in_range by (unfold len; simpl List.length; lia).
  cbn [firstn forallb app nth Z.to_nat Pos.to_nat Pos.iter_op Nat.add].
  simpl. rewrite Command_value_is_byte. simpl.
  repeat match goal with
         | |- context [is_byte ?v] =>
             is_var v; destruct (is_byte v); simpl; [|reflexivity]
         end.
  reflexivity.
Qed.

(** A frame is built, or not, from the opcode and the first eight values of
    the padded payload alone: the only failure is ValueError, when one of
    those eight is outside 0..255, and a frame that is built is the opcode,
    those eight bytes and the opcode again. *)
Theorem frame_built_or_value_error (cmd : Command) (payload : option (list Z)) :
  let copied := firstn 8 (padded_payload payload) in
  List.length copied = 8%nat
  /\ (Forall (fun b => 0 <= b < 256) copied ->
      byteBuffer_of cmd payload
      = Ok (Command_value cmd :: copied ++ [Command_value cmd]))
  /\ (~ Forall (fun b => 0 <= b < 256) copied ->
      byteBuffer_of cmd payload = Raise ValueError)
  /\ byteBuffer_of cmd payload <> Raise IndexError.
Proof.
  intros copied.
  assert (Hbytes : forallb is_byte copied = true
                   <-> Forall (fun b => 0 <= b < 256) copied).
  { rewrite forallb_forall, Forall_forall. unfold is_byte.
    split; intros H b Hb; specialize (H b Hb).
    - apply andb_true_iff in H. destruct H as [H1 H2].
      apply Z.leb_le in H1. apply Z.ltb_lt in H2. lia.
    - apply andb_true_intro; split; [apply Z.leb_le | apply Z.ltb_lt]; lia. }
  split.
  - subst copied. rewrite length_firstn.
    pose proof (padded_payload_length payload). lia.
  - rewrite byteBuffer_of_total. fold copied.
    destruct (forallb is_byte copied) eqn:Hall.
    + split; [reflexivity|].
      split; [|discriminate].
      intros Hno. contradiction Hno. apply Hbytes. reflexivity.
    + split; [|split; [reflexivity | discriminate]].
      intros Hyes. apply Hbytes in Hyes. discriminate Hyes.
Qed.

Lemma frame_built_or_value_error_witness :
  byteBuffer_of SET_LIGHTING (Some [255; 256; 0]) = Raise ValueError.
Proof.
  apply (frame_built_or_value_error SET_LIGHTING (Some [255; 256; 0])).
  intros H. inversion H as [|? ? _ H1]; subst.
  inversion H1 as [|? ? Hbad _]; subst. lia.
Defined.

(** When a value of the payload is no byte, SendCommand raises ValueError
    before it writes to the link or touches the queue, on both paths. *)
Theorem SendCommand_rejects_non_bytes (cmd : Command)
  (payload : option (list Z)) (bypass_queue timed_out : bool) :
  ~ Forall (fun b => 0 <= b < 256) (firstn 8 (padded_payload payload)) ->
  SendCommand cmd payload bypass_queue timed_out = ([], Raise ValueError).
Proof.
  intros Hbad. unfold SendCommand. rewrite byteBuffer_of_total.
  destruct (forallb is_byte (firstn 8 (padded_payload payload))) eqn:Hall;
    [|reflexivity].
  contradiction Hbad. apply Forall_forall. intros b Hb.
  pose proof (proj1 (forallb_forall _ _) Hall b Hb) as H. unfold is_byte in H.
  apply andb_true_iff in H. destruct H as [H1 H2].
  apply Z.leb_le in H1. apply Z.ltb_lt in H2. lia.
Qed.

Lemma SendCommand_rejects_non_bytes_witness :
  SendCommand SET_BRIGHTNESS (Some [-1]) false false = ([], Raise ValueError).
Proof.
  apply (SendCommand_rejects_non_bytes SET_BRIGHTNESS (Some [-1]) false false).
  intros H. inversion H as [|? ? Hbad _]; subst. lia.
Defined.

Lemma padded_payload_zeros (p : list Z) (k : nat) :
  (List.length p + k <= 8)%nat ->
  firstn 8 (padded_payload (Some (p ++ repeat 0 k)))
  = firstn 8 (padded_payload (Some p)).
Proof.
  intros Hk.
  rewrite !padded_payload_short by (rewrite ?length_app, ?repeat_length; lia).
  rewrite length_app, repeat_length, <- app_assoc, <- repeat_app.
  do 3 f_equal. lia.
Qed.

(** The frame does not carry the length of the payload: zeros at the end of
    a payload, up to eight bytes in all, change nothing, and no payload at
    all is the empty payload. *)
Theorem frame_ignores_trailing_zeros (cmd : Command) (p : list Z) (k : nat) :
  (List.length p + k <= 8)%nat ->
  byteBuffer_of cmd (Some (p ++ repeat 0 k)) = byteBuffer_of cmd (Some p)
  /\ byteBuffer_of cmd None = byteBuffer_of cmd (Some []).
Proof.
  intros Hk. split.
  - rewrite !byteBuffer_of_total, padded_payload_zeros by assumption.
    reflexivity.
  - rewrite !byteBuffer_of_total. reflexivity.
Qed.

Lemma frame_ignores_trailing_zeros_witness :
  byteBuffer_of SET_BRIGHTNESS (Some ([7] ++ repeat 0 3))
  = byteBuffer_of SET_BRIGHTNESS (Some [7]).
Proof.
  apply (frame_ignores_trailing_zeros SET_BRIGHTNESS [7] 3). simpl; lia.
Defined.

Lemma Ok_inj {A : Type} (a b : A) : Ok a = Ok b -> a = b.
Proof. intros H. injection H as H. exact H. Qed.

Lemma Command_value_injective (c1 c2 : Command) :
  Command_value c1 = Command_value c2 -> c1 = c2.
Proof. destruct c1, c2; intros H; try reflexivity; discriminate H. Qed.

(** A frame tells its command and the eight bytes it carries: two calls
    that build the same frame have the same opcode and the same first eight
    bytes of padded payload. *)
Theorem frame_determines_command_and_payload (c1 c2 : Command)
  (p1 p2 : option (list Z)) (frame : list Z) :
  byteBuffer_of c1 p1 = Ok frame ->
  byteBuffer_of c2 p2 = Ok frame ->
  c1 = c2
  /\ firstn 8 (padded_payload p1) = firstn 8 (padded_payload p2)
  /\ firstn 8 (padded_payload p1) = firstn 8 (skipn 1 frame).
Proof.
  rewrite !byteBuffer_of_total. intros H1 H2.
  destruct (forallb is_byte (firstn 8 (padded_payload p1))); [|discriminate H1].
  destruct (forallb is_byte (firstn 8 (padded_payload p2))); [|discriminate H2].
  apply Ok_inj in H1. apply Ok_inj in H2.
  assert (Hl1 : List.length (firstn 8 (padded_payload p1)) = 8%nat)
    by (rewrite length_firstn; pose proof (padded_payload_length p1); lia).
  rewrite <- H1 in H2.
  assert (Hc : Command_value c2 = Command_value c1) by congruence.
  assert (Hrest : firstn 8 (padded_payload p2) ++ [Command_value c2]
                  = firstn 8 (padded_payload p1) ++ [Command_value c1])
    by congruence.
  split; [symmetry; apply Command_value_injective; exact Hc|].
  split.
  - apply app_inv_tail_iff with (l := [Command_value c1]).
    rewrite Hc in Hrest. symmetry. exact Hrest.
  - rewrite <- H1.
    change (skipn 1 (Command_value c1 :: firstn 8 (padded_payload p1)
                       ++ [Command_value c1]))
      with (firstn 8 (padded_payload p1) ++ [Command_value c1]).
    rewrite firstn_app, Hl1, Nat.sub_diag, firstn_O, app_nil_r.
    symmetry. apply firstn_all2. rewrite Hl1. lia.
Qed.

Lemma frame_determines_command_and_payload_witness :
  SET_LIGHTING = SET_LIGHTING
  /\ firstn 8 (padded_payload (Some [1; 2; 3]))
     = firstn 8 (padded_payload (Some [1; 2; 3; 0]))
  /\ firstn 8 (padded_payload (Some [1; 2; 3]))
     = firstn 8 (skipn 1 [0xCD; 1; 2; 3; 0; 0; 0; 0; 0; 0xCD]).
Proof.
  apply (frame_determines_command_and_payload SET_LIGHTING SET_LIGHTING
           (Some [1; 2; 3]) (Some [1; 2; 3; 0])
           [0xCD; 1; 2; 3; 0; 0; 0; 0; 0; 0xCD]); reflexivity.
Defined.

(** ** The handshake, reply by reply *)

Lemma Hello_outcome_after_framing (sub_revision : SubRevision)
  (timed_out : bool) (response : list Z) :
  response <> [] ->
  outcome (Hello sub_revision timed_out response)
  = match getitem response 6 with
    | Raise e => Raise e
    | Ok r6 =>
        if r6 =? 0xA
        then match getitem response 7 with
             | Raise e => Raise e
             | Ok r7 =>
                 Ok (if r7 =? 0x01 then A01
                     else if r7 =? 0x02 then A02
                     else if r7 =? 0x11 then A11
                     else if r7 =? 0x12 then A12
                     else sub_revision)
             end
        else Ok sub_revision
    end.
Proof.
  intros Hne. unfold Hello.
  rewrite outcome_bind, outcome_SendCommand_hello.
  rewrite outcome_bind, outcome_warn_if.
  rewrite outcome_bind.
  rewrite getitem_in_range
    by (unfold len; destruct response; [contradiction | simpl List.length; lia]).
  cbn [lift outcome snd].
  rewrite outcome_bind.
  match goal with
  | |- context [outcome (if negb (?x =? _) then ret true else _)] =>
      destruct (outcome_bad_framing response x Hne) as [bad Hbad]; rewrite Hbad
  end.
  rewrite outcome_bind, outcome_warn_if.
  rewrite outcome_bind, outcome_warn_if.
  rewrite outcome_bind.
  destruct (getitem response 6) as [r6 | e]; [|reflexivity].
  cbn [lift outcome snd]. rewrite outcome_bind.
  destruct (r6 =? 0xA); [|reflexivity].
  rewrite outcome_bind.
  destruct (getitem response 7) as [r7 | e]; [|reflexivity].
  cbn [lift outcome snd].
  destruct (r7 =? 0x01); [reflexivity|].
  destruct (r7 =? 0x02); [reflexivity|].
  destruct (r7 =? 0x11); [reflexivity|].
  destruct (r7 =? 0x12); reflexivity.
Qed.

(** Hello raises exactly on a reply of fewer than 7 bytes, or of 7 bytes
    whose byte 6 announces a version (0x0A) that byte 7 should carry; the
    exception is IndexError and no other. *)
Theorem Hello_raises_exactly_on_short_replies (sub_revision : SubRevision)
  (timed_out : bool) (response : list Z) :
  (outcome (Hello sub_revision timed_out response) = Raise IndexError
   <-> (List.length response <= 6)%nat
       \/ (List.length response = 7%nat /\ nth 6 response 0 = 0xA))
  /\ (forall e, outcome (Hello sub_revision timed_out response) = Raise e ->
                e = IndexError).
Proof.
  destruct (Nat.le_gt_cases (List.length response) 6) as [Hshort | Hlong].
  - rewrite (Hello_short_reply_raises _ _ _ Hshort).
    split; [split; [left; exact Hshort | reflexivity]|].
    intros e He. injection He as <-. reflexivity.
  - assert (Hne : response <> []) by (intros ->; simpl in Hlong; lia).
    rewrite (Hello_outcome_after_framing _ _ _ Hne).
    rewrite (getitem_in_range response 6) by (unfold len; lia).
    change (Z.to_nat 6) with 6%nat.
    destruct (Z.eqb_spec (nth 6 response 0) 0xA) as [H6 | H6].
    + destruct (Nat.eq_dec (List.length response) 7) as [H7 | H8].
      * rewrite getitem_out_of_range by (unfold len; lia).
        split; [split; [right; split; assumption | reflexivity]|].
        intros e He. injection He as <-. reflexivity.
      * rewrite (getitem_in_range response 7) by (unfold len; lia).
        split; [split; [discriminate | intros [Hc | [Hc _]]; lia]|].
        discriminate.
    + split; [split; [discriminate | intros [Hc | [_ Hc]]; [lia | contradiction]]|].
      discriminate.
Qed.

(** The tier comes from bytes 6 and 7 alone: on a reply of 8 bytes or more,
    0x0A followed by 0x01, 0x02, 0x11 or 0x12 selects A01, A02, A11 or A12,
    even when the framing or the HELLO echo is wrong; any other pair leaves
    the tier as it was.  The call returns normally in all these cases. *)
Theorem Hello_tier_from_version_bytes (sub_revision : SubRevision)
  (timed_out : bool) (response : list Z) :
  (8 <= List.length response)%nat ->
  let r6 := nth 6 response 0 in
  let r7 := nth 7 response 0 in
  (r6 = 0xA -> r7 = 0x01 ->
   outcome (Hello sub_revision timed_out response) = Ok A01)
  /\ (r6 = 0xA -> r7 = 0x02 ->
      outcome (Hello sub_revision timed_out response) = Ok A02)
  /\ (r6 = 0xA -> r7 = 0x11 ->
      outcome (Hello sub_revision timed_out response) = Ok A11)
  /\ (r6 = 0xA -> r7 = 0x12 ->
      outcome (Hello sub_revision timed_out response) = Ok A12)
  /\ (r6 <> 0xA \/ (r7 <> 0x01 /\ r7 <> 0x02 /\ r7 <> 0x11 /\ r7 <> 0x12) ->
      outcome (Hello sub_revision timed_out response) = Ok sub_revision).
Proof.
  intros Hlen r6 r7.
  assert (Hne : response <> []) by (intros ->; simpl in Hlen; lia).
  rewrite (Hello_outcome_after_framing _ _ _ Hne).
  rewrite (getitem_in_range response 6), (getitem_in_range response 7)
    by (unfold len; lia).
  change (Z.to_nat 6) with 6%nat. change (Z.to_nat 7) with 7%nat.
  fold r6 r7.
  repeat split.
  - intros -> ->. reflexivity.
  - intros -> ->. reflexivity.
  - intros -> ->. reflexivity.
  - intros -> ->. reflexivity.
  - intros [H6 | (H1 & H2 & H3 & H4)].
    + destruct (Z.eqb_spec r6 0xA); [contradiction | reflexivity].
    + destruct (r6 =? 0xA); [|reflexivity].
      destruct (Z.eqb_spec r7 0x01); [contradiction|].
      destruct (Z.eqb_spec r7 0x02); [contradiction|].
      destruct (Z.eqb_spec r7 0x11); [contradiction|].
      destruct (Z.eqb_spec r7 0x12); [contradiction | reflexivity].
Qed.

Lemma Hello_tier_from_version_bytes_witness :
  outcome (Hello A01 false [0; 1; 2; 3; 4; 5; 0xA; 0x12]) = Ok A12.
Proof.
  apply (Hello_tier_from_version_bytes A01 false [0; 1; 2; 3; 4; 5; 0xA; 0x12]);
    [simpl; lia | reflexivity | reflexivity].
Defined.

(** A well-formed reply logs no warning: Hello writes its frame, reads the
    tier and logs it at debug level, as [hex] writes it, whatever byte 8
    is. *)
Theorem Hello_well_formed_reply (sub_revision tier : SubRevision)
  (version unused : Z) (text : string) :
  In (version, tier, text)
     [(0x01, A01, "0xa01"%string); (0x02, A02, "0xa02"%string);
      (0x11, A11, "0xa11"%string); (0x12, A12, "0xa12"%string)] ->
  Hello sub_revision false
    [0xCA; 72; 69; 76; 76; 79; 0xA; version; unused; 0xCA]
  = ([SerialWrite hello_frame;
      Log Debug (String.append "HW sub-revision: " text)], Ok tier).
Proof.
  intros Hin. simpl in Hin.
  destruct Hin as [H | [H | [H | [H | []]]]]; injection H as <- <- <-;
    reflexivity.
Qed.

Lemma Hello_well_formed_reply_witness :
  Hello A01 false [0xCA; 72; 69; 76; 76; 79; 0xA; 0x11; 0; 0xCA]
  = ([SerialWrite hello_frame; Log Debug "HW sub-revision: 0xa11"], Ok A11).
Proof.
  apply (Hello_well_formed_reply A01 A11 0x11 0 "0xa11"). simpl. tauto.
Defined.

Lemma all_bind {A B : Type} (P : event -> bool) (m : M A) (f : A -> M B) :
  forallb P (trace m) = true ->
  (forall a, forallb P (trace (f a)) = true) ->
  forallb P (trace (bind m f)) = true.
Proof.
  intros Hm Hf. rewrite trace_bind, forallb_app, Hm.
  destruct (outcome m); [apply Hf | reflexivity].
Qed.

Lemma warn_if_off_queue (c : bool) (lvl : loglevel) (msg : string) :
  forallb off_queue (trace (if c then emit (Log lvl msg) else ret tt)) = true.
Proof. destruct c; reflexivity. Qed.

(** Hello bypasses the update queue: whatever the reply, it takes no mutex
    and puts no job, and the first thing it does is to write the HELLO frame
    on the link. *)
Theorem Hello_bypasses_the_queue (sub_revision : SubRevision)
  (timed_out : bool) (response : list Z) :
  forallb off_queue (trace (Hello sub_revision timed_out response)) = true
  /\ puts (trace (Hello sub_revision timed_out response)) = []
  /\ hd_error (trace (Hello sub_revision timed_out response))
     = Some (SerialWrite hello_frame).
Proof.
  assert (Hoff : forallb off_queue
                   (trace (Hello sub_revision timed_out response)) = true).
  { unfold Hello.
    apply all_bind; [destruct timed_out; reflexivity | intros _].
    apply all_bind; [apply warn_if_off_queue | intros _].
    apply all_bind; [reflexivity | intros first].
    apply all_bind.
    { destruct (negb (first =? Command_value HELLO)); [reflexivity|].
      apply all_bind; [reflexivity | intros last; reflexivity]. }
    intros bad.
    apply all_bind; [apply warn_if_off_queue | intros _].
    apply all_bind; [apply warn_if_off_queue | intros _].
    apply all_bind; [reflexivity | intros r6].
    apply all_bind; [|intros rev; reflexivity].
    destruct (r6 =? 0xA); [|reflexivity].
    apply all_bind; [reflexivity | intros r7].
    destruct (r7 =? 0x01); [reflexivity|].
    destruct (r7 =? 0x02); [reflexivity|].
    destruct (r7 =? 0x11); [reflexivity|].
    destruct (r7 =? 0x12); reflexivity. }
  split; [exact Hoff|].
  split.
  - revert Hoff. generalize (trace (Hello sub_revision timed_out response)).
    induction l as [|e l IH]; [reflexivity|].
    simpl. intros H. apply andb_true_iff in H. destruct H as [He Hl].
    destruct e; try discriminate He; apply IH; exact Hl.
  - unfold Hello. rewrite trace_bind.
    destruct timed_out; reflexivity.
Qed.

(** ** Brightness, backlight and orientation *)

(** A level outside 0..100 stops at the assertion: nothing is logged, nothing
    is put on the queue, on any tier. *)
Theorem SetBrightness_rejects_out_of_range (sub_revision : SubRevision)
  (level_user : Z) :
  level_user < 0 \/ 100 < level_user ->
  SetBrightness sub_revision level_user = ([], Raise AssertionError).
Proof.
  intros Hout. unfold SetBrightness.
  replace ((0 <=? level_user) && (level_user <=? 100)) with false; [reflexivity|].
  symmetry. apply andb_false_iff.
  destruct Hout; [left; apply Z.leb_gt | right; apply Z.leb_gt]; lia.
Qed.

Lemma SetBrightness_rejects_out_of_range_witness :
  SetBrightness A12 101 = ([], Raise AssertionError).
Proof. apply (SetBrightness_rejects_out_of_range A12 101). right. lia. Defined.

(** On a range-capable tier two different levels never share a byte: the
    byte grows strictly with the level, from 0 at level 0 to 255 at level
    100. *)
Theorem range_brightness_strictly_increasing (level_user level_user' : Z) :
  0 <= level_user -> level_user < level_user' -> level_user' <= 100 ->
  exists level level',
    brightness_range_level level_user = Ok level
    /\ brightness_range_level level_user' = Ok level'
    /\ level < level'
    /\ brightness_range_level 0 = Ok 0
    /\ brightness_range_level 100 = Ok 255.
Proof.
  intros Hlo Hlt Hhi.
  exists (level_user * 255 / 100), (level_user' * 255 / 100).
  split; [apply brightness_range_level_truncates; lia|].
  split; [apply brightness_range_level_truncates; lia|].
  split.
  - apply Z.lt_le_trans with ((level_user * 255 + 1 * 100) / 100).
    + rewrite Z.div_add by lia. lia.
    + apply Z.div_le_mono; lia.
  - split; [apply (brightness_range_level_truncates 0); lia|].
    apply (brightness_range_level_truncates 100); lia.
Qed.

Lemma range_brightness_strictly_increasing_witness :
  exists level level',
    brightness_range_level 49 = Ok level
    /\ brightness_range_level 50 = Ok level'
    /\ level < level'
    /\ brightness_range_level 0 = Ok 0
    /\ brightness_range_level 100 = Ok 255.
Proof. apply (range_brightness_strictly_increasing 49 50); lia. Defined.

(** ScreenOff never fails and puts one SET_BRIGHTNESS frame on the queue:
    its payload byte is 1 on the tiers with on/off brightness and 0 on the
    tiers with the brightness range. *)
Theorem ScreenOff_frame (sub_revision : SubRevision) :
  outcome (ScreenOff sub_revision) = Ok tt
  /\ puts (trace (ScreenOff sub_revision))
     = [(WriteData_fn,
         [0xCE; if is_brightness_range sub_revision then 0 else 1;
          0; 0; 0; 0; 0; 0; 0; 0xCE])].
Proof. destruct sub_revision; split; vm_compute; reflexivity. Qed.

(** ScreenOn at a configured brightness of 0..100 never fails and puts one
    SET_BRIGHTNESS frame on the queue; on the tiers with on/off brightness
    the byte is 0 (full brightness) unless the configured brightness is 0,
    in which case ScreenOn sends the same frame as ScreenOff. *)
Theorem ScreenOn_frame (sub_revision : SubRevision) (BRIGHTNESS : Z) :
  0 <= BRIGHTNESS <= 100 ->
  exists level,
    outcome (ScreenOn sub_revision BRIGHTNESS) = Ok tt
    /\ puts (trace (ScreenOn sub_revision BRIGHTNESS))
       = [(WriteData_fn, [0xCE; level; 0; 0; 0; 0; 0; 0; 0; 0xCE])]
    /\ (is_brightness_range sub_revision = true ->
        level = BRIGHTNESS * 255 / 100)
    /\ (is_brightness_range sub_revision = false ->
        level = if BRIGHTNESS =? 0 then 1 else 0)
    /\ (BRIGHTNESS = 0 ->
        ScreenOn sub_revision BRIGHTNESS = ScreenOff sub_revision).
Proof.
  intros Hrange.
  assert (Hbyte : 0 <= BRIGHTNESS * 255 / 100 < 256).
  { split; [apply Z.div_pos; lia|]. apply Z.div_lt_upper_bound; lia. }
  assert (Hlast : BRIGHTNESS = 0 ->
                  ScreenOn sub_revision BRIGHTNESS = ScreenOff sub_revision)
    by (intros ->; reflexivity).
  assert (Hcall : ScreenOn sub_revision BRIGHTNESS
                  = (level <-
                       (if is_brightness_range sub_revision
                        then lift (brightness_range_level BRIGHTNESS)
                        else emit (Log Info
                                     "Your display does not support custom brightness level") ;;;
                             ret (if BRIGHTNESS =? 0 then 1 else 0)) ;;
                     SendCommand SET_BRIGHTNESS (Some [level]) false false)).
  { unfold ScreenOn, SetBrightness.
    rewrite SetBrightness_asserted by assumption.
    change (py_assert true) with (ret tt). rewrite bind_ret. reflexivity. }
  rewrite Hcall in *. clear Hcall.
  destruct (is_brightness_range sub_revision) eqn:Htier.
  - exists (BRIGHTNESS * 255 / 100).
    rewrite brightness_range_level_truncates in * by assumption.
    rewrite bind_lift_ok in *.
    rewrite (SendCommand_queued SET_BRIGHTNESS _
               [0xCE; BRIGHTNESS * 255 / 100; 0; 0; 0; 0; 0; 0; 0; 0xCE]) in *.
    + repeat split; try reflexivity; try discriminate. exact Hlast.
    + rewrite byteBuffer_of_short; [reflexivity | simpl; lia|].
      constructor; [lia | constructor].
    + rewrite byteBuffer_of_short; [reflexivity | simpl; lia|].
      constructor; [lia | constructor].
  - exists (if BRIGHTNESS =? 0 then 1 else 0).
    repeat split; try discriminate; try exact Hlast.
    + destruct (BRIGHTNESS =? 0); reflexivity.
    + destruct (BRIGHTNESS =? 0); reflexivity.
Qed.

Lemma ScreenOn_frame_witness :
  exists level,
    outcome (ScreenOn A11 80) = Ok tt
    /\ puts (trace (ScreenOn A11 80))
       = [(WriteData_fn, [0xCE; level; 0; 0; 0; 0; 0; 0; 0; 0xCE])]
    /\ (is_brightness_range A11 = true -> level = 80 * 255 / 100)
    /\ (is_brightness_range A11 = false -> level = if 80 =? 0 then 1 else 0)
    /\ (80 = 0 -> ScreenOn A11 80 = ScreenOff A11).
Proof. apply (ScreenOn_frame A11 80). lia. Defined.

(** On the tiers without the RGB backplate, SetBackplateLedColor sends
    nothing: it logs at info level and returns normally, whatever the color,
    a malformed one included. *)
Theorem backplate_color_unsupported (sub_revision : SubRevision)
  (led_color : list Z) :
  is_flagship sub_revision = false ->
  SetBackplateLedColor sub_revision led_color
  = ([Log Info
        "Only HW revision 'flagship' supports backplate LED color setting"],
     Ok tt)
  /\ puts (trace (SetBackplateLedColor sub_revision led_color)) = [].
Proof.
  intros Htier. unfold SetBackplateLedColor. rewrite Htier.
  split; reflexivity.
Qed.

Lemma backplate_color_unsupported_witness :
  puts (trace (SetBackplateLedColor A11 [300; -1])) = [].
Proof. apply (backplate_color_unsupported A11 [300; -1]). reflexivity. Defined.

(** On the flagship tiers, a color of three bytes is put on the queue as one
    SET_LIGHTING frame that carries red, green and blue in bytes 1 to 3. *)
Theorem backplate_color_frame (sub_revision : SubRevision) (r g b : Z) :
  is_flagship sub_revision = true ->
  0 <= r <= 255 -> 0 <= g <= 255 -> 0 <= b <= 255 ->
  SetBackplateLedColor sub_revision [r; g; b]
  = ([Acquire; Put (WriteData_fn, [0xCD; r; g; b; 0; 0; 0; 0; 0; 0xCD]);
      Release], Ok tt).
Proof.
  intros Htier Hr Hg Hb. unfold SetBackplateLedColor. rewrite Htier.
  apply SendCommand_queued.
  rewrite byteBuffer_of_short; [reflexivity | simpl; lia|].
  repeat constructor; lia.
Qed.

Lemma backplate_color_frame_witness :
  SetBackplateLedColor A02 [255; 128; 0]
  = ([Acquire; Put (WriteData_fn, [0xCD; 255; 128; 0; 0; 0; 0; 0; 0; 0xCD]);
      Release], Ok tt).
Proof. apply (backplate_color_frame A02 255 128 0); [reflexivity | lia..]. Defined.

(** SetOrientation never fails; the frame it puts on the queue tells portrait
    from landscape only, so an orientation and its reverse send the same
    frame. *)
Theorem SetOrientation_frame (orientation : Orientation) :
  let reverse o :=
    match o with
    | PORTRAIT => REVERSE_PORTRAIT
    | REVERSE_PORTRAIT => PORTRAIT
    | LANDSCAPE => REVERSE_LANDSCAPE
    | REVERSE_LANDSCAPE => LANDSCAPE
    end in
  let value :=
    match orientation with
    | PORTRAIT | REVERSE_PORTRAIT => 0
    | LANDSCAPE | REVERSE_LANDSCAPE => 1
    end in
  SetOrientation orientation
  = ([Acquire; Put (WriteData_fn, [0xCB; value; 0; 0; 0; 0; 0; 0; 0; 0xCB]);
      Release], Ok tt)
  /\ SetOrientation (reverse orientation) = SetOrientation orientation.
Proof. destruct orientation; split; reflexivity. Qed.

(** ** Paints, whatever the geometry *)

(** The lines of the [with] block of a paint, for use below. *)
Lemma send_pixels_lines (get_width : Z) (image : Image) (w h : Z) :
  0 < get_width ->
  0 <= w <= fst (size image) ->
  0 <= h <= snd (size image) ->
  (forall x y, 0 <= x < w -> 0 <= y < h -> rgb_pixel (pixels image x y)) ->
  exists lines,
    send_pixels get_width image w h
    = (Acquire :: map line_job lines ++ [Release], Ok tt)
    /\ concat lines = raster image w h
    /\ len (raster image w h) = 2 * w * h
    /\ Forall (fun l => len l = get_width * 8) (removelast lines)
    /\ Forall (fun l => 0 < len l <= get_width * 8) lines.
Proof.
  intros Hgw Hw Hh Hrgb.
  assert (Hstart : buffering (get_width * 8) [])
    by (split; [unfold len; simpl; lia | exists 0; reflexivity]).
  assert (Hrows :
    chunked (get_width * 8) [] (raster image w h)
      (for_each (range h)
         (fun y line => for_each (range w) (pixel_body get_width image y) line)
         [])).
  { apply (for_each_chunked (get_width * 8) Z (raster_row image w)
             (fun y line => for_each (range w) (pixel_body get_width image y) line)
             (fun y => 0 <= y < h)).
    - intros y line Hy Hline.
      apply (for_each_chunked (get_width * 8) Z
               (fun x => little_endian (rgb_word (pixels image x y)))
               (pixel_body get_width image y)
               (fun x => 0 <= x < w)).
      + intros x line0 Hx Hline0.
        apply pixel_body_chunked; try assumption; try lia.
        apply Hrgb; assumption.
      + apply Forall_forall. intros x Hx. apply in_range. exact Hx.
      + exact Hline.
    - apply Forall_forall. intros y Hy. apply in_range. exact Hy.
    - exact Hstart. }
  destruct Hrows as (lines & rest & Hloop & Hcat & Hfull & [Hlt [k Hk]]).
  simpl in Hcat.
  assert (Hbounded : Forall (fun l => 0 < len l <= get_width * 8) lines).
  { apply Forall_forall. intros l Hl.
    pose proof (proj1 (Forall_forall _ _) Hfull l Hl) as Hlen.
    cbv beta in Hlen. lia. }
  unfold send_pixels. rewrite (bind_ok _ _ _ _ Hloop).
  destruct (Z.ltb_spec 0 (len rest)) as [Hrest | Hempty].
  - exists (lines ++ [rest]).
    split.
    + unfold SendLine, emit, with_mutex, trace, outcome. cbn [fst snd].
      rewrite map_app. reflexivity.
    + split; [rewrite concat_app; simpl; rewrite app_nil_r; exact Hcat|].
      split; [apply raster_length; lia|].
      split; [rewrite removelast_last; exact Hfull|].
      apply Forall_app. split; [exact Hbounded|].
      constructor; [lia | constructor].
  - exists lines.
    assert (rest = []) as ->.
    { destruct rest; [reflexivity|]. unfold len in Hempty. simpl in Hempty. lia. }
    split.
    + unfold ret, with_mutex, trace, outcome. cbn [fst snd].
      rewrite app_nil_r. reflexivity.
    + split; [rewrite app_nil_r in Hcat; exact Hcat|].
      split; [apply raster_length; lia|].
      split; [apply Forall_removelast; exact Hfull | exact Hbounded].
Qed.

Lemma DisplayPILImage_steps (get_width get_height : Z) (image : Image)
  (x y image_width image_height : Z) :
  let w := resolved_width get_width image image_width in
  let h := resolved_height get_height image image_height in
  DisplayPILImage get_width get_height image x y image_width image_height
  = (py_assert (x <=? get_width) ;;;
     py_assert (y <=? get_height) ;;;
     py_assert (h >? 0) ;;;
     py_assert (w >? 0) ;;;
     SendCommand DISPLAY_BITMAP
       (Some [Z.land (Z.shiftr x 8) 255; Z.land x 255;
              Z.land (Z.shiftr y 8) 255; Z.land y 255;
              Z.land (Z.shiftr (x + w - 1) 8) 255; Z.land (x + w - 1) 255;
              Z.land (Z.shiftr (y + h - 1) 8) 255; Z.land (y + h - 1) 255])
       false false ;;;
     send_pixels get_width image w h).
Proof. reflexivity. Qed.

Lemma DisplayPILImage_accepted (get_width get_height : Z) (image : Image)
  (x y image_width image_height : Z) :
  let w := resolved_width get_width image image_width in
  let h := resolved_height get_height image image_height in
  x <= get_width -> y <= get_height -> 0 < h -> 0 < w ->
  DisplayPILImage get_width get_height image x y image_width image_height
  = ([Acquire;
      Put (WriteData_fn,
           0xCC :: bounding_box_payload x y (x + w - 1) (y + h - 1) ++ [0xCC]);
      Release] ++ trace (send_pixels get_width image w h),
     outcome (send_pixels get_width image w h)).
Proof.
  intros w h Hx Hy Hh Hw. rewrite DisplayPILImage_steps. fold w h.
  replace (x <=? get_width) with true by (symmetry; apply Z.leb_le; lia).
  replace (y <=? get_height) with true by (symmetry; apply Z.leb_le; lia).
  replace (h >? 0) with true by (symmetry; rewrite Z.gtb_ltb; apply Z.ltb_lt; lia).
  replace (w >? 0) with true by (symmetry; rewrite Z.gtb_ltb; apply Z.ltb_lt; lia).
  change (py_assert true) with (ret tt). rewrite !bind_ret.
  rewrite !split_high_byte, !land_255_mod.
  apply (bind_ok _ (fun _ : unit => send_pixels get_width image w h) _ tt).
  apply SendCommand_queued.
  rewrite byteBuffer_of_short.
  - reflexivity.
  - simpl; lia.
  - apply (bounding_box_payload_bytes x y (x + w - 1) (y + h - 1)).
Qed.

(** A paint whose position is beyond the display, or whose resolved width or
    height is not positive, stops at an assertion before anything is put on
    the queue. *)
Theorem DisplayPILImage_rejects_bad_geometry (get_width get_height : Z)
  (image : Image) (x y image_width image_height : Z) :
  get_width < x \/ get_height < y
  \/ resolved_height get_height image image_height <= 0
  \/ resolved_width get_width image image_width <= 0 ->
  DisplayPILImage get_width get_height image x y image_width image_height
  = ([], Raise AssertionError).
Proof.
  intros Hbad. rewrite DisplayPILImage_steps.
  destruct (Z.leb_spec x get_width) as [Hx | Hx]; [|reflexivity].
  destruct (Z.leb_spec y get_height) as [Hy | Hy]; [|reflexivity].
  change (py_assert true) with (ret tt). rewrite !bind_ret.
  rewrite !Z.gtb_ltb.
  destruct (Z.ltb_spec 0 (resolved_height get_height image image_height))
    as [Hh | Hh]; [|reflexivity].
  destruct (Z.ltb_spec 0 (resolved_width get_width image image_width))
    as [Hw | Hw]; [|reflexivity].
  lia.
Qed.

Lemma DisplayPILImage_rejects_bad_geometry_witness :
  DisplayPILImage 320 480 (mkImage (10, 10) (fun _ _ => (0, 0, 0))) 321 0 0 0
  = ([], Raise AssertionError).
Proof.
  apply (DisplayPILImage_rejects_bad_geometry 320 480
           (mkImage (10, 10) (fun _ _ => (0, 0, 0))) 321 0 0 0).
  left. lia.
Defined.

(** A paint with a valid geometry, of a region that lies inside the image,
    never fails: it puts the DISPLAY_BITMAP frame of the box
    (x, y)-(x+w-1, y+h-1), then the pixel lines, which put end to end are the
    raster-order encoding of the w by h region, and it leaves the mutex
    free. *)
Theorem DisplayPILImage_paints_region (get_width get_height : Z)
  (image : Image) (x y image_width image_height : Z) :
  let w := resolved_width get_width image image_width in
  let h := resolved_height get_height image image_height in
  0 < get_width ->
  x <= get_width -> y <= get_height ->
  0 < w <= fst (size image) -> 0 < h <= snd (size image) ->
  (forall i j, 0 <= i < w -> 0 <= j < h -> rgb_pixel (pixels image i j)) ->
  exists lines,
    DisplayPILImage get_width get_height image x y image_width image_height
    = ([Acquire;
        Put (WriteData_fn,
             0xCC :: bounding_box_payload x y (x + w - 1) (y + h - 1) ++ [0xCC]);
        Release; Acquire] ++ map line_job lines ++ [Release], Ok tt)
    /\ concat lines = raster image w h
    /\ lines <> [].
Proof.
  intros w h Hgw Hx Hy Hw Hh Hrgb.
  destruct (send_pixels_lines get_width image w h)
    as (lines & Hsend & Hcat & Hlen & _ & _); try assumption; try lia.
  exists lines. split; [|split; [exact Hcat|]].
  - rewrite DisplayPILImage_accepted by (fold w h; lia).
    fold w h. rewrite Hsend. reflexivity.
  - intros ->. cbn [concat] in Hcat. rewrite <- Hcat in Hlen.
    change (len []) with 0 in Hlen. nia.
Qed.

Lemma DisplayPILImage_paints_region_witness :
  exists lines,
    DisplayPILImage 320 480 (mkImage (2, 2) (fun _ _ => (0, 0, 0))) 5 7 0 0
    = ([Acquire;
        Put (WriteData_fn,
             0xCC :: bounding_box_payload 5 7 (5 + 2 - 1) (7 + 2 - 1) ++ [0xCC]);
        Release; Acquire] ++ map line_job lines ++ [Release], Ok tt)
    /\ concat lines = raster (mkImage (2, 2) (fun _ _ => (0, 0, 0))) 2 2
    /\ lines <> [].
Proof.
  apply (DisplayPILImage_paints_region 320 480
           (mkImage (2, 2) (fun _ _ => (0, 0, 0))) 5 7 0 0);
    try (vm_compute; intuition discriminate).
Defined.

Lemma resolved_width_clamped (get_width : Z) (image : Image) (image_width : Z) :
  get_width < fst (size image) ->
  resolved_width get_width image image_width = get_width.
Proof.
  intros H. unfold resolved_width.
  replace (fst (size image) >? get_width) with true; [reflexivity|].
  symmetry. rewrite Z.gtb_ltb. apply Z.ltb_lt. exact H.
Qed.

Lemma resolved_height_clamped (get_height : Z) (image : Image)
  (image_height : Z) :
  get_height < snd (size image) ->
  resolved_height get_height image image_height = get_height.
Proof.
  intros H. unfold resolved_height.
  replace (snd (size image) >? get_height) with true; [reflexivity|].
  symmetry. rewrite Z.gtb_ltb. apply Z.ltb_lt. exact H.
Qed.

(** An image larger than the display is cropped, not scaled: whatever width
    and height are asked for, the paint sends the box of the size of the
    display and the pixels of the top-left corner of the image, as they
    are. *)
Theorem oversized_image_is_cropped (get_width get_height : Z) (image : Image)
  (image_width image_height : Z) :
  0 < get_width < fst (size image) ->
  0 < get_height < snd (size image) ->
  (forall i j, 0 <= i < get_width -> 0 <= j < get_height ->
               rgb_pixel (pixels image i j)) ->
  exists lines,
    puts (trace (DisplayPILImage get_width get_height image 0 0
                   image_width image_height))
    = (WriteData_fn,
       0xCC :: bounding_box_payload 0 0 (get_width - 1) (get_height - 1)
            ++ [0xCC])
      :: map (pair WriteLine_fn) lines
    /\ concat lines = raster image get_width get_height
    /\ outcome (DisplayPILImage get_width get_height image 0 0
                  image_width image_height) = Ok tt.
Proof.
  intros Hw Hh Hrgb.
  destruct (send_pixels_lines get_width image get_width get_height)
    as (lines & Hsend & Hcat & _); try assumption; try lia.
  exists lines.
  pose proof (DisplayPILImage_accepted get_width get_height image 0 0
                image_width image_height) as Hpaint.
  cbv zeta in Hpaint.
  rewrite resolved_width_clamped, resolved_height_clamped in Hpaint by lia.
  rewrite Hpaint by lia. rewrite Hsend. rewrite !Z.add_0_l.
  unfold trace, outcome. cbn [fst snd app puts].
  split; [|split; [exact Hcat | reflexivity]].
  f_equal. rewrite puts_app. cbn [puts]. rewrite app_nil_r.
  clear. induction lines as [|l lines IH]; [reflexivity|].
  cbn [map line_job puts]. rewrite IH. reflexivity.
Qed.

Lemma oversized_image_is_cropped_witness :
  exists lines,
    puts (trace (DisplayPILImage 2 2
                   (mkImage (3, 4) (fun i j => (8 * i, 4 * j, 0))) 0 0 9 9))
    = (WriteData_fn, 0xCC :: bounding_box_payload 0 0 (2 - 1) (2 - 1) ++ [0xCC])
      :: map (pair WriteLine_fn) lines
    /\ concat lines = raster (mkImage (3, 4) (fun i j => (8 * i, 4 * j, 0))) 2 2
    /\ outcome (DisplayPILImage 2 2
                  (mkImage (3, 4) (fun i j => (8 * i, 4 * j, 0))) 0 0 9 9)
       = Ok tt.
Proof.
  apply (oversized_image_is_cropped 2 2
           (mkImage (3, 4) (fun i j => (8 * i, 4 * j, 0))) 9 9).
  - simpl; lia.
  - simpl; lia.
  - intros i j Hi Hj. cbv [rgb_pixel pixels]. lia.
Defined.

(** Whatever its arguments, and also when it raises, a paint leaves the
    mutex free and has put jobs only while it held it: it does nothing to the
    queue, or it runs one [with] block for the frame and one for the pixel
    lines, whose events between Acquire and Release are all puts. *)
Theorem DisplayPILImage_releases_the_mutex (get_width get_height : Z)
  (image : Image) (x y image_width image_height : Z) :
  let paint :=
    trace (DisplayPILImage get_width get_height image x y
             image_width image_height) in
  disciplined paint = true
  /\ (paint = []
      \/ exists frame body,
           paint = [Acquire; Put (WriteData_fn, frame); Release]
                     ++ Acquire :: body ++ [Release]
           /\ forallb is_put body = true).
Proof.
  intros paint. split.
  - apply DisplayPILImage_disciplined.
  - apply DisplayPILImage_shape.
Qed.

Lemma pixel_body_returns (get_width : Z) (image : Image) (h w : Z)
  (line : list Z) :
  0 <= w < fst (size image) -> 0 <= h < snd (size image) ->
  rgb_pixel (pixels image w h) ->
  exists line', outcome (pixel_body get_width image h w line) = Ok line'.
Proof.
  intros Hw Hh Hrgb. unfold pixel_body.
  rewrite pix_getitem_inside by assumption. rewrite bind_lift_ok.
  destruct (pixels image w h) as [[r g] b]. destruct Hrgb as (Hr & Hg & Hb).
  rewrite struct_pack_H_bytes by (apply rgb_word_range; assumption).
  rewrite bind_lift_ok.
  destruct (get_width * 8 <=? _); eexists; reflexivity.
Qed.

Lemma pixel_body_outside (get_width : Z) (image : Image) (h w : Z)
  (line : list Z) :
  fst (size image) <= w ->
  pixel_body get_width image h w line = ([], Raise IndexError).
Proof.
  intros Hw. unfold pixel_body, pix_getitem.
  replace (w <? fst (size image)) with false by (symmetry; apply Z.ltb_ge; lia).
  rewrite andb_false_r. reflexivity.
Qed.

(** The inner loop raises IndexError when it runs past the last column. *)
Lemma row_past_the_image_raises (get_width : Z) (image : Image) (h : Z) :
  0 <= h < snd (size image) ->
  (forall i, 0 <= i < fst (size image) -> rgb_pixel (pixels image i h)) ->
  forall (n a : nat) (line : list Z),
    Z.of_nat a <= fst (size image) < Z.of_nat (a + n) ->
    outcome (for_each (map Z.of_nat (seq a n)) (pixel_body get_width image h)
               line) = Raise IndexError.
Proof.
  intros Hh Hrgb. induction n as [|n IH]; intros a line Ha; [lia|].
  cbn [seq map for_each]. rewrite outcome_bind.
  destruct (Z.eq_dec (Z.of_nat a) (fst (size image))) as [Heq | Hne].
  - rewrite pixel_body_outside by lia. reflexivity.
  - destruct (pixel_body_returns get_width image h (Z.of_nat a) line)
      as [line' Hline']; [lia | exact Hh | apply Hrgb; lia|].
    rewrite Hline'. apply IH. lia.
Qed.

(** A paint that is asked for more columns than the image has fails in the
    middle: the DISPLAY_BITMAP frame for the box asked for is already on the
    queue when IndexError is raised. *)
Theorem paint_wider_than_image_raises (get_width get_height : Z)
  (image : Image) (x y image_width : Z) :
  x <= get_width -> y <= get_height ->
  0 <= fst (size image) <= get_width ->
  0 < snd (size image) <= get_height ->
  fst (size image) < image_width ->
  (forall i j, 0 <= i < fst (size image) -> 0 <= j < snd (size image) ->
               rgb_pixel (pixels image i j)) ->
  outcome (DisplayPILImage get_width get_height image x y image_width 0)
  = Raise IndexError
  /\ hd_error
       (puts (trace (DisplayPILImage get_width get_height image x y
                       image_width 0)))
     = Some (WriteData_fn,
             0xCC :: bounding_box_payload x y (x + image_width - 1)
                                          (y + snd (size image) - 1)
                  ++ [0xCC]).
Proof.
  intros Hx Hy Hw Hh Hwide Hrgb.
  assert (Hrw : resolved_width get_width image image_width = image_width).
  { unfold resolved_width.
    replace (image_width =? 0) with false by (symmetry; apply Z.eqb_neq; lia).
    replace (fst (size image) >? get_width) with false; [reflexivity|].
    symmetry. rewrite Z.gtb_ltb. apply Z.ltb_ge. lia. }
  assert (Hrh : resolved_height get_height image 0 = snd (size image)).
  { unfold resolved_height. change (0 =? 0) with true. cbv iota.
    replace (snd (size image) >? get_height) with false; [reflexivity|].
    symmetry. rewrite Z.gtb_ltb. apply Z.ltb_ge. lia. }
  pose proof (DisplayPILImage_accepted get_width get_height image x y
                image_width 0) as Hpaint.
  cbv zeta in Hpaint. rewrite Hrw, Hrh in Hpaint.
  rewrite Hpaint by lia.
  split; [|reflexivity].
  unfold outcome at 1. cbn [snd].
  unfold send_pixels, with_mutex.
  match goal with
  | |- outcome (let (t, r) := ?m in _) = _ =>
      assert (Hloops : outcome m = Raise IndexError)
  end.
  - rewrite outcome_bind.
    unfold range at 1.
    destruct (Z.to_nat (snd (size image))) as [|rows] eqn:Hrows; [lia|].
    cbn [seq map for_each]. rewrite outcome_bind.
    unfold range.
    rewrite (row_past_the_image_raises get_width image (Z.of_nat 0));
      [reflexivity | simpl; lia | intros i Hi; apply Hrgb; simpl; lia | lia].
  - match goal with
    | |- outcome (let (t, r) := ?m in _) = _ => destruct m as [t r]
    end.
    exact Hloops.
Qed.

Lemma paint_wider_than_image_raises_witness :
  outcome (DisplayPILImage 320 480 (mkImage (2, 1) (fun _ _ => (1, 2, 3)))
             0 0 3 0)
  = Raise IndexError
  /\ hd_error
       (puts (trace (DisplayPILImage 320 480
                       (mkImage (2, 1) (fun _ _ => (1, 2, 3))) 0 0 3 0)))
     = Some (WriteData_fn,
             0xCC :: bounding_box_payload 0 0 (0 + 3 - 1) (0 + 1 - 1) ++ [0xCC]).
Proof.
  apply (paint_wider_than_image_raises 320 480
           (mkImage (2, 1) (fun _ _ => (1, 2, 3))) 0 0 3); simpl; lia.
Defined.

(** ** Clearing the screen *)

Lemma raster_white (sz : Z * Z) (w h : Z) :
  Forall (eq 255) (raster (mkImage sz (fun _ _ => (255, 255, 255))) w h).
Proof.
  apply Forall_forall. intros b Hb. unfold raster, raster_row in Hb.
  apply in_flat_map in Hb. destruct Hb as (y & _ & Hb).
  apply in_flat_map in Hb. destruct Hb as (x & _ & Hb).
  cbn [pixels] in Hb. change (In b [255; 255]) in Hb.
  destruct Hb as [<- | [<- | []]]; reflexivity.
Qed.

(** On a display of positive size, Clear (and Reset, which is Clear) never
    fails: it puts the frame of the whole screen, (0, 0)-(width-1,
    height-1), then pixel lines that hold 2 * width * height bytes, all of
    them 0xFF. *)
Theorem Clear_paints_the_screen_white (get_width get_height : Z) :
  0 < get_width -> 0 < get_height ->
  exists lines,
    Clear get_width get_height
    = ([Acquire;
        Put (WriteData_fn,
             0xCC :: bounding_box_payload 0 0 (get_width - 1) (get_height - 1)
                  ++ [0xCC]);
        Release; Acquire] ++ map line_job lines ++ [Release], Ok tt)
    /\ concat lines = repeat 255 (Z.to_nat (2 * get_width * get_height))
    /\ Reset get_width get_height = Clear get_width get_height.
Proof.
  intros Hw Hh.
  set (blank := mkImage (get_width, get_height) (fun _ _ => (255, 255, 255))).
  assert (Hrw : resolved_width get_width blank 0 = get_width).
  { unfold resolved_width. change (0 =? 0) with true. cbn [blank size fst].
    rewrite Z.gtb_ltb, Z.ltb_irrefl. reflexivity. }
  assert (Hrh : resolved_height get_height blank 0 = get_height).
  { unfold resolved_height. change (0 =? 0) with true. cbn [blank size snd].
    rewrite Z.gtb_ltb, Z.ltb_irrefl. reflexivity. }
  destruct (send_pixels_lines get_width blank get_width get_height)
    as (lines & Hsend & Hcat & Hlen & _); try (cbn [blank size fst snd]; lia).
  { intros x y _ _. cbv [rgb_pixel pixels blank]. lia. }
  exists lines. split; [|split; [|reflexivity]].
  - unfold Clear. fold blank.
    pose proof (DisplayPILImage_accepted get_width get_height blank 0 0 0 0)
      as Hpaint.
    cbv zeta in Hpaint. rewrite Hrw, Hrh in Hpaint.
    rewrite Hpaint by lia. rewrite Hsend, !Z.add_0_l. reflexivity.
  - rewrite Hcat.
    pose proof (Forall_eq_repeat (raster_white (get_width, get_height)
                                    get_width get_height)) as Hwhite.
    fold blank in Hwhite. rewrite Hwhite.
    f_equal. unfold len in Hlen. lia.
Qed.

Lemma Clear_paints_the_screen_white_witness :
  exists lines,
    Clear 2 3
    = ([Acquire;
        Put (WriteData_fn, 0xCC :: bounding_box_payload 0 0 (2 - 1) (3 - 1) ++ [0xCC]);
        Release; Acquire] ++ map line_job lines ++ [Release], Ok tt)
    /\ concat lines = repeat 255 (Z.to_nat (2 * 2 * 3))
    /\ Reset 2 3 = Clear 2 3.
Proof. apply (Clear_paints_the_screen_white 2 3); lia. Defined.

(** ** The fields of a packed pixel *)

Lemma shiftr_scaled (q k : Z) : 0 <= k -> Z.shiftr (2 ^ k * q) k = q.
Proof.
  intros Hk. rewrite Z.shiftr_div_pow2 by lia.
  rewrite Z.mul_comm. apply Z.div_mul. apply Z.pow_nonzero; lia.
Qed.

Lemma rgb_word_downsampled (r g b : Z) :
  rgb_word (r, g, b) = rgb_word (8 * (r / 8), 4 * (g / 4), 8 * (b / 8)).
Proof.
  unfold rgb_word.
  change 8 with (2 ^ 3). change 4 with (2 ^ 2).
  rewrite (shiftr_scaled (r / 2 ^ 3) 3), (shiftr_scaled (g / 2 ^ 2) 2),
    (shiftr_scaled (b / 2 ^ 3) 3) by lia.
  rewrite !(Z.shiftr_div_pow2 r), !(Z.shiftr_div_pow2 g), !(Z.shiftr_div_pow2 b)
    by lia.
  reflexivity.
Qed.

Lemma rgb_word_fields_checked (R5 G6 B5 : Z) :
  0 <= R5 < 32 -> 0 <= G6 < 64 -> 0 <= B5 < 32 ->
  let word := rgb_word (8 * R5, 4 * G6, 8 * B5) in
  (word / 8) mod 32 = R5
  /\ (word / 256) mod 32 = B5
  /\ (word mod 8) * 8 + word / 8192 = G6
  /\ word mod 256 = 8 * R5 + G6 / 8
  /\ word / 256 = 32 * (G6 mod 8) + B5.
Proof.
  intros HR HG HB.
  assert (Hall :
    forallb (fun R =>
      forallb (fun G =>
        forallb (fun B =>
          let word := rgb_word (8 * R, 4 * G, 8 * B) in
          ((word / 8) mod 32 =? R) && ((word / 256) mod 32 =? B)
          && ((word mod 8) * 8 + word / 8192 =? G)
          && (word mod 256 =? 8 * R + G / 8)
          && (word / 256 =? 32 * (G mod 8) + B))
        (range 32)) (range 64)) (range 32) = true) by (vm_compute; reflexivity).
  rewrite forallb_forall in Hall.
  specialize (Hall R5 (proj2 (in_range 32 R5) HR)).
  rewrite forallb_forall in Hall.
  specialize (Hall G6 (proj2 (in_range 64 G6) HG)).
  rewrite forallb_forall in Hall.
  specialize (Hall B5 (proj2 (in_range 32 B5) HB)).
  cbv zeta in Hall.
  repeat (apply andb_true_iff in Hall; destruct Hall as [Hall ?]).
  repeat match goal with
         | H : (_ =? _) = true |- _ => apply Z.eqb_eq in H
         end.
  cbv zeta. repeat split; assumption.
Qed.

(** The packing loses nothing but the low bits dropped by the downsampling:
    red is read back from bits 3-7 of the word, blue from bits 8-12, green
    from bits 0-2 (its high half) and 13-15 (its low half); so two pixels
    get the same word exactly when their 5, 6 and 5 kept bits agree.  On the
    wire the low byte is R5:G6[5..3] and the high byte is G6[2..0]:B5. *)
Theorem packed_word_fields (r g b r' g' b' : Z) :
  0 <= r <= 255 -> 0 <= g <= 255 -> 0 <= b <= 255 ->
  0 <= r' <= 255 -> 0 <= g' <= 255 -> 0 <= b' <= 255 ->
  let word := rgb_word (r, g, b) in
  (word / 8) mod 32 = r / 8
  /\ (word / 256) mod 32 = b / 8
  /\ (word mod 8) * 8 + word / 8192 = g / 4
  /\ struct_pack_H word
     = Ok [8 * (r / 8) + g / 4 / 8; 32 * ((g / 4) mod 8) + b / 8]
  /\ (rgb_word (r, g, b) = rgb_word (r', g', b')
      <-> r / 8 = r' / 8 /\ g / 4 = g' / 4 /\ b / 8 = b' / 8).
Proof.
  intros Hr Hg Hb Hr' Hg' Hb' word.
  assert (Hq : forall v d m, 0 < d -> 0 <= v <= 255 -> 256 = d * m ->
                             0 <= v / d < m).
  { intros v d m Hd Hv Hm.
    split; [apply Z.div_pos; lia | apply Z.div_lt_upper_bound; lia]. }
  destruct (rgb_word_fields_checked (r / 8) (g / 4) (b / 8))
    as (HR & HB & HG & Hlo & Hhi);
    [apply Hq; lia | apply Hq; lia | apply Hq; lia|].
  cbv zeta in HR, HB, HG, Hlo, Hhi.
  rewrite <- rgb_word_downsampled in HR, HB, HG, Hlo, Hhi. fold word in HR, HB, HG, Hlo, Hhi.
  split; [exact HR|]. split; [exact HB|]. split; [exact HG|].
  split.
  - subst word. rewrite struct_pack_H_bytes by (apply rgb_word_range; assumption).
    rewrite Hlo, Hhi. reflexivity.
  - split.
    + intros Heq.
      destruct (rgb_word_fields_checked (r' / 8) (g' / 4) (b' / 8))
        as (HR' & HB' & HG' & _);
        [apply Hq; lia | apply Hq; lia | apply Hq; lia|].
      cbv zeta in HR', HB', HG'.
      rewrite <- rgb_word_downsampled, <- Heq in HR', HB', HG'.
      fold word in HR', HB', HG'. lia.
    + intros (ER & EG & EB).
      rewrite (rgb_word_downsampled r g b), (rgb_word_downsampled r' g' b').
      rewrite ER, EG, EB. reflexivity.
Qed.

Lemma packed_word_fields_witness :
  (rgb_word (200, 100, 50) = rgb_word (207, 103, 55)
   <-> 200 / 8 = 207 / 8 /\ 100 / 4 = 103 / 4 /\ 50 / 8 = 55 / 8).
Proof. apply (packed_word_fields 200 100 50 207 103 55); lia. Defined.

(** ** Finding the port *)

Lemma auto_detect_com_port_app (ports : list com_port) (port : com_port) :
  auto_detect_com_port (ports ++ [port])
  = if is_turing_screen port
    then Some (device port)
    else auto_detect_com_port ports.
Proof. unfold auto_detect_com_port. rewrite fold_left_app. reflexivity. Qed.

(** The port found is the last one in the list whose serial number is
    "2017-2-25": every port after it has another serial number or none; and
    no port is found exactly when no port of the list has that serial
    number. *)
Theorem auto_detect_com_port_last_match (com_ports : list com_port) :
  (auto_detect_com_port com_ports = None
   <-> forall port, In port com_ports -> is_turing_screen port = false)
  /\ (forall dev, auto_detect_com_port com_ports = Some dev ->
      exists before port after,
        com_ports = before ++ port :: after
        /\ serial_number port = Some "2017-2-25"%string
        /\ device port = dev
        /\ forall other, In other after -> is_turing_screen other = false).
Proof.
  induction com_ports as [|port ports IH] using rev_ind.
  - split; [split; [intros _ port [] | reflexivity] | intros dev H; discriminate H].
  - rewrite auto_detect_com_port_app. destruct IH as [IHnone IHsome].
    destruct (is_turing_screen port) eqn:Hport.
    + split.
      * split; [discriminate|].
        intros Hall. rewrite (Hall port) in Hport; [discriminate Hport|].
        apply in_or_app. right. left. reflexivity.
      * intros dev Hdev. injection Hdev as <-.
        exists ports, port, []. split; [reflexivity|].
        split; [|split; [reflexivity | intros other []]].
        unfold is_turing_screen in Hport.
        destruct (serial_number port) as [sn|]; [|discriminate Hport].
        apply String.eqb_eq in Hport. rewrite Hport. reflexivity.
    + split.
      * rewrite IHnone. split.
        -- intros Hall other Hin. apply in_app_or in Hin.
           destruct Hin as [Hin | [<- | []]]; [apply Hall; exact Hin | exact Hport].
        -- intros Hall other Hin. apply Hall. apply in_or_app. left. exact Hin.
      * intros dev Hdev.
        destruct (IHsome dev Hdev) as (before & found & after & -> & Hsn & Hd & Hafter).
        exists before, found, (after ++ [port]).
        split; [rewrite <- app_assoc; reflexivity|].
        split; [exact Hsn|]. split; [exact Hd|].
        intros other Hin. apply in_app_or in Hin.
        destruct Hin as [Hin | [<- | []]]; [apply Hafter; exact Hin | exact Hport].
Qed.

(** ** No deadlock on the queue mutex *)

Lemma disciplined_from_app (held : bool) (a b : list event) :
  disciplined_from held a = true ->
  disciplined_from false b = true ->
  disciplined_from held (a ++ b) = true.
Proof.
  revert held. induction a as [|e a IH]; intros held Ha Hb.
  - simpl in Ha. destruct held; [discriminate Ha | exact Hb].
  - destruct e; cbn [app disciplined_from] in *.
    + apply andb_true_iff in Ha. destruct Ha as [Hh Ha].
      rewrite Hh. apply IH; assumption.
    + apply andb_true_iff in Ha. destruct Ha as [Hh Ha].
      rewrite Hh. apply IH; assumption.
    + destruct held; [|discriminate Ha]. apply IH; assumption.
    + apply IH; assumption.
    + apply IH; assumption.
Qed.

Lemma off_queue_disciplined (t : list event) :
  forallb off_queue t = true -> disciplined t = true.
Proof.
  unfold disciplined. induction t as [|e t IH]; [reflexivity|].
  simpl. intros H. apply andb_true_iff in H. destruct H as [He Ht].
  destruct e; try discriminate He; apply IH; exact Ht.
Qed.

Lemma Hello_off_queue (sub_revision : SubRevision) (timed_out : bool)
  (response : list Z) :
  forallb off_queue (trace (Hello sub_revision timed_out response)) = true.
Proof.
  unfold Hello.
  apply all_bind; [destruct timed_out; reflexivity | intros _].
  apply all_bind; [apply warn_if_off_queue | intros _].
  apply all_bind; [reflexivity | intros first].
  apply all_bind.
  { destruct (negb (first =? Command_value HELLO)); [reflexivity|].
    apply all_bind; [reflexivity | intros last; reflexivity]. }
  intros bad.
  apply all_bind; [apply warn_if_off_queue | intros _].
  apply all_bind; [apply warn_if_off_queue | intros _].
  apply all_bind; [reflexivity | intros r6].
  apply all_bind; [|intros rev; reflexivity].
  destruct (r6 =? 0xA); [|reflexivity].
  apply all_bind; [reflexivity | intros r7].
  destruct (r7 =? 0x01); [reflexivity|].
  destruct (r7 =? 0x02); [reflexivity|].
  destruct (r7 =? 0x11); [reflexivity|].
  destruct (r7 =? 0x12); reflexivity.
Qed.

(** Every call of the driver keeps the locking discipline, whatever its
    arguments and whether it raises or not. *)
Lemma call_trace_disciplined (get_width get_height : Z) (c : call) :
  disciplined (call_trace get_width get_height c) = true.
Proof.
  destruct c; cbn [call_trace].
  - apply off_queue_disciplined, Hello_off_queue.
  - apply SetBrightness_disciplined.
  - unfold SetBackplateLedColor. destruct (is_flagship sub_revision);
      [apply SendCommand_disciplined | reflexivity].
  - apply SendCommand_disciplined.
  - apply DisplayPILImage_disciplined.
  - apply DisplayPILImage_disciplined.
  - apply DisplayPILImage_disciplined.
  - apply SetBrightness_disciplined.
  - apply SetBrightness_disciplined.
Qed.

Lemma thread_of_disciplined (get_width get_height : Z) (calls : list call) :
  disciplined (thread_of get_width get_height calls) = true.
Proof.
  unfold thread_of, disciplined.
  induction calls as [|c calls IH]; [reflexivity|].
  cbn [flat_map]. apply disciplined_from_app; [|exact IH].
  apply call_trace_disciplined.
Qed.

Lemma step_owner_in_range (s s' : system) (i : nat) :
  (forall j, owner s = Some j -> exists t, nth_error (threads s) j = Some t) ->
  step s i = Some s' ->
  forall j, owner s' = Some j -> exists t, nth_error (threads s') j = Some t.
Proof.
  intros Hin Hstep j Hj.
  destruct (step_inv s s' i Hstep) as (e & rest & Hi & Hts & He).
  rewrite Hts.
  destruct (Nat.eq_dec i j) as [<- | Hne].
  - exists rest. apply (nth_error_set_thread_same _ _ _ _ Hi).
  - rewrite nth_error_set_thread_other by assumption.
    apply Hin.
    destruct e.
    + destruct He as (_ & Ho' & _). congruence.
    + destruct He as (Ho' & _). congruence.
    + destruct He as (Ho' & _). congruence.
    + destruct He as (Ho' & _). congruence.
    + destruct He as (Ho' & _). congruence.
Qed.

Lemma run_keeps_discipline (schedule : list nat) :
  forall s s',
    well_locked s ->
    (forall j, owner s = Some j -> exists t, nth_error (threads s) j = Some t) ->
    run s schedule = Some s' ->
    well_locked s'
    /\ (forall j, owner s' = Some j -> exists t, nth_error (threads s') j = Some t).
Proof.
  induction schedule as [|i schedule IH]; intros s s' Hwl Hin Hrun; simpl in Hrun.
  - injection Hrun as <-. split; assumption.
  - destruct (step s i) as [s1|] eqn:Hstep; [|discriminate].
    apply (IH s1 s').
    + apply (step_well_locked s s1 i); assumption.
    + apply (step_owner_in_range s s1 i); assumption.
    + exact Hrun.
Qed.

Lemma unfinished_thread (ts : list (list event)) :
  forallb (fun t => match t with [] => true | _ => false end) ts = false ->
  exists i e rest, nth_error ts i = Some (e :: rest).
Proof.
  induction ts as [|t ts IH]; [discriminate|].
  simpl. destruct t as [|e rest].
  - intros H. destruct (IH H) as (i & e & rest & Hi).
    exists (S i), e, rest. exact Hi.
  - intros _. exists 0%nat, e, rest. reflexivity.
Qed.

(** Threads that call the methods of the driver never deadlock on the queue
    mutex: in every state they can reach, whatever the calls, their arguments
    and the exceptions raised, if some thread still has something to do then
    some thread can do its next step. *)
Theorem driver_never_deadlocks (get_width get_height : Z)
  (programs : list (list call)) (schedule : list nat) (s : system) :
  run (init (map (thread_of get_width get_height) programs)) schedule = Some s ->
  finished s = false ->
  exists i, can_step s i = true.
Proof.
  intros Hrun Hleft.
  destruct (run_keeps_discipline schedule
              (init (map (thread_of get_width get_height) programs)) s)
    as [Hwl Hin].
  - apply init_well_locked. apply Forall_forall. intros t Ht.
    apply in_map_iff in Ht. destruct Ht as (calls & <- & _).
    apply thread_of_disciplined.
  - intros j Hj. discriminate Hj.
  - exact Hrun.
  - destruct (owner s) as [j|] eqn:Ho.
    + destruct (Hin j eq_refl) as [t Ht].
      pose proof (Hwl j t Ht) as Hd.
      rewrite (proj2 (holds_owner s j) Ho) in Hd.
      exists j. unfold can_step, step. rewrite Ht.
      destruct t as [|e rest]; [discriminate Hd|].
      destruct e; try reflexivity. discriminate Hd.
    + destruct (unfinished_thread (threads s) Hleft) as (i & e & rest & Hi).
      exists i. unfold can_step, step. rewrite Hi, Ho.
      destruct e; reflexivity.
Qed.

Lemma driver_never_deadlocks_witness :
  exists i,
    can_step
      (mkSystem [(WriteData_fn, [0xCB; 1; 0; 0; 0; 0; 0; 0; 0; 0xCB])]
         (Some 0%nat)
         [[Release];
          [Log Info "Your display does not support custom brightness level";
           Acquire; Put (WriteData_fn, [0xCE; 1; 0; 0; 0; 0; 0; 0; 0; 0xCE]);
           Release]]) i = true.
Proof.
  apply (driver_never_deadlocks 320 480
           [[CallSetOrientation LANDSCAPE]; [CallScreenOff A01]]
           [0; 0]%nat).
  - vm_compute. reflexivity.
  - reflexivity.
Defined.

(** ** One thread alone *)

Lemma run_alone (t : list event) :
  forall (q : list job) (held : bool),
    disciplined_from held t = true ->
    run (mkSystem q (if held then Some 0%nat else None) [t])
        (repeat 0%nat (List.length t))
    = Some (mkSystem (q ++ puts t) None [[]]).
Proof.
  induction t as [|e t IH]; intros q held Hd.
  - simpl in Hd. destruct held; [discriminate Hd|].
    simpl. rewrite app_nil_r. reflexivity.
  - cbn [List.length repeat run]. unfold step. cbn [threads nth_error set_thread].
    destruct e; cbn [disciplined_from] in Hd.
    + destruct held; [discriminate Hd|]. cbn [negb andb owner queue] in *.
      rewrite (IH q true Hd). reflexivity.
    + destruct held; [|discriminate Hd]. cbn [andb owner queue] in *.
      rewrite (IH q false Hd). reflexivity.
    + destruct held; [|discriminate Hd]. cbn [andb owner queue] in *.
      rewrite (IH (q ++ [j]) true Hd). cbn [puts].
      rewrite <- app_assoc. reflexivity.
    + cbn [owner queue]. rewrite (IH q held Hd). reflexivity.
    + cbn [owner queue]. rewrite (IH q held Hd). reflexivity.
Qed.

(** A thread that makes calls one after the other, alone, always runs to
    the end: the queue then holds the jobs of the calls, call after call in
    the order of the calls and in the order each call put them, and the
    mutex is free. *)
Theorem single_thread_queue_order (get_width get_height : Z)
  (calls : list call) :
  run (init [thread_of get_width get_height calls])
      (repeat 0%nat (List.length (thread_of get_width get_height calls)))
  = Some (mkSystem
            (flat_map (fun c => puts (call_trace get_width get_height c)) calls)
            None [[]]).
Proof.
  unfold init.
  rewrite (run_alone (thread_of get_width get_height calls) [] false
             (thread_of_disciplined get_width get_height calls)).
  do 2 f_equal. cbn [app]. unfold thread_of.
  induction calls as [|c calls IH]; [reflexivity|].
  cbn [flat_map]. rewrite puts_app, IH. reflexivity.
Qed.

(** ** How many lines a paint sends *)

Lemma len_concat_full (cap : Z) (lines : list (list Z)) :
  Forall (fun l => len l = cap) lines ->
  len (concat lines) = Z.of_nat (List.length lines) * cap.
Proof.
  induction 1 as [|l lines Hl Hlines IH]; [reflexivity|].
  cbn [concat List.length]. rewrite len_app, IH, Hl. lia.
Qed.



(** ** What the handshake leaves for the other calls *)

(** After InitializeComm on a fresh session, with a reply of 8 bytes or
    more, the brightness range is on exactly when bytes 6 and 7 are 0x0A
    then 0x11 or 0x12, and the RGB backplate exactly when they are 0x0A then
    0x02 or 0x12; a reply that tells nothing leaves both off. *)
Theorem capabilities_after_handshake (timed_out : bool) (response : list Z) :
  (8 <= List.length response)%nat ->
  let r6 := nth 6 response 0 in
  let r7 := nth 7 response 0 in
  exists tier,
    outcome (InitializeComm initial_sub_revision timed_out response) = Ok tier
    /\ (is_brightness_range tier = true
        <-> r6 = 0xA /\ (r7 = 0x11 \/ r7 = 0x12))
    /\ (is_flagship tier = true
        <-> r6 = 0xA /\ (r7 = 0x02 \/ r7 = 0x12)).
Proof.
  intros Hlen r6 r7.
  assert (Hne : response <> []) by (intros ->; simpl in Hlen; lia).
  unfold InitializeComm. rewrite (Hello_outcome_after_framing _ _ _ Hne).
  rewrite (getitem_in_range response 6), (getitem_in_range response 7)
    by (unfold len; lia).
  change (Z.to_nat 6) with 6%nat. change (Z.to_nat 7) with 7%nat.
  fold r6 r7.
  destruct (Z.eqb_spec r6 0xA) as [H6 | H6].
  - destruct (Z.eqb_spec r7 0x01) as [H1 | H1];
      [exists A01; split; [reflexivity|];
       split; (split; [discriminate | intros [_ [H | H]]; lia])|].
    destruct (Z.eqb_spec r7 0x02) as [H2 | H2];
      [exists A02; split; [reflexivity|]; split;
       [split; [discriminate | intros [_ [H | H]]; lia]
       | split; [intros _; split; [exact H6 | left; exact H2] | reflexivity]]|].
    destruct (Z.eqb_spec r7 0x11) as [H3 | H3];
      [exists A11; split; [reflexivity|]; split;
       [split; [intros _; split; [exact H6 | left; exact H3] | reflexivity]
       | split; [discriminate | intros [_ [H | H]]; lia]]|].
    destruct (Z.eqb_spec r7 0x12) as [H4 | H4];
      [exists A12; split; [reflexivity|]; split;
       (split; [intros _; split; [exact H6 | right; exact H4] | reflexivity])|].
    exists A01. split; [reflexivity|].
    split; (split; [discriminate | intros [_ [H | H]]; lia]).
  - exists A01. split; [reflexivity|].
    split; (split; [discriminate | intros [H _]; contradiction]).
Qed.

Lemma capabilities_after_handshake_witness :
  exists tier,
    outcome (InitializeComm initial_sub_revision false
               [0xCA; 72; 69; 76; 76; 79; 0xA; 0x12; 0; 0xCA]) = Ok tier
    /\ (is_brightness_range tier = true
        <-> 0xA = 0xA /\ (0x12 = 0x11 \/ 0x12 = 0x12))
    /\ (is_flagship tier = true
        <-> 0xA = 0xA /\ (0x12 = 0x02 \/ 0x12 = 0x12)).
Proof.
  apply (capabilities_after_handshake false
           [0xCA; 72; 69; 76; 76; 79; 0xA; 0x12; 0; 0xCA]).
  simpl; lia.
Defined.

(** ** The backplate, tier by tier *)

(** For a color of three bytes, SetBackplateLedColor never fails: on the
    flagship tiers it puts one SET_LIGHTING frame that carries the color, on
    the other tiers it puts nothing and only logs; it never writes to the
    link itself. *)
Theorem SetBackplateLedColor_by_tier (sub_revision : SubRevision) (r g b : Z) :
  0 <= r <= 255 -> 0 <= g <= 255 -> 0 <= b <= 255 ->
  outcome (SetBackplateLedColor sub_revision [r; g; b]) = Ok tt
  /\ puts (trace (SetBackplateLedColor sub_revision [r; g; b]))
     = (if is_flagship sub_revision
        then [(WriteData_fn, [0xCD; r; g; b; 0; 0; 0; 0; 0; 0xCD])]
        else [])
  /\ (is_flagship sub_revision = true <->
      sub_revision = A02 \/ sub_revision = A12)
  /\ disciplined (trace (SetBackplateLedColor sub_revision [r; g; b])) = true.
Proof.
  intros Hr Hg Hb.
  assert (Hframe : SendCommand SET_LIGHTING (Some [r; g; b]) false false
                   = ([Acquire;
                       Put (WriteData_fn, [0xCD; r; g; b; 0; 0; 0; 0; 0; 0xCD]);
                       Release], Ok tt)).
  { apply SendCommand_queued.
    rewrite byteBuffer_of_short; [reflexivity | simpl; lia|].
    repeat constructor; lia. }
  unfold SetBackplateLedColor.
  destruct sub_revision; cbn [is_flagship]; rewrite ?Hframe;
    repeat split; try reflexivity; try discriminate;
    try (intros [H | H]; discriminate H);
    try (intros _; (left; reflexivity) || (right; reflexivity)).
Qed.

Lemma SetBackplateLedColor_by_tier_witness :
  outcome (SetBackplateLedColor A12 [10; 20; 30]) = Ok tt
  /\ puts (trace (SetBackplateLedColor A12 [10; 20; 30]))
     = [(WriteData_fn, [0xCD; 10; 20; 30; 0; 0; 0; 0; 0; 0xCD])].
Proof.
  destruct (SetBackplateLedColor_by_tier A12 10 20 30) as (Hok & Hputs & _);
    try lia.
  split; [exact Hok | exact Hputs].
Defined.
